(** * MutualInfluenceAI: a shallow embedding of the metrics engine, the
      influence model, the peer-trust tracker, the agent call protocol,
      one experiment pass and the resumable sweep runner.

    Conventions of the embedding.
    - Python [float] values are read as real numbers ([R]): the arithmetic of
      the source is kept operation by operation, rounding and overflow of
      IEEE-754 doubles are not part of the model.  A float division by zero
      raises [ZeroDivisionError] in Python; the functions that divide return
      [option] and are [None] exactly there.
    - Python [str] values are 8-bit strings; case mapping and white space are
      those of ASCII text.
    - Python [set] is [gset string], [dict] with string keys is [gmap string],
      a JSON object keeps its members as an association list (last
      occurrence of a key wins, as in [dict(pairs)]). *)

From Stdlib Require Import Reals Lra Lia ZArith String Ascii List Bool.
From stdpp Require Import gmap strings list fin_maps sets pretty sorting.

Set Warnings "-register-all,-abstract-large-number,-clear-no-such-hyp".

(** ** Python string primitives used by the sources *)

Module PyStr.

(** [str.isspace] on ASCII: TAB..CR, FS..US and SPACE. *)
Definition isspace (c : ascii) : bool :=
  let n := N_of_ascii c in
  ((9 <=? n)%N && (n <=? 13)%N) || ((28 <=? n)%N && (n <=? 32)%N).

Definition lower_char (c : ascii) : ascii :=
  let n := N_of_ascii c in
  if ((65 <=? n)%N && (n <=? 90)%N) then ascii_of_N (n + 32) else c.

(** [s.lower()] *)
Fixpoint lower (s : string) : string :=
  match s with
  | EmptyString => EmptyString
  | String c s' => String (lower_char c) (lower s')
  end.

Definition starts_with (p : ascii -> bool) (s : string) : bool :=
  match s with
  | String c _ => p c
  | EmptyString => false
  end.

(** The maximal runs of characters satisfying [p], left to right. *)
Fixpoint runs (p : ascii -> bool) (s : string) : list string :=
  match s with
  | EmptyString => []
  | String c s' =>
      if p c then
        match runs p s' with
        | w :: ws =>
            if starts_with p s' then String c w :: ws
            else String c EmptyString :: w :: ws
        | [] => [String c EmptyString]
        end
      else runs p s'
  end.

(** [s.split()] with no argument: the words between white space. *)
Definition split (s : string) : list string :=
  runs (fun c => negb (isspace c)) s.

(** [sep.join(ws)] *)
Fixpoint join (sep : string) (ws : list string) : string :=
  match ws with
  | [] => EmptyString
  | [w] => w
  | w :: ws' => String.append w (String.append sep (join sep ws'))
  end.

Fixpoint lstrip (s : string) : string :=
  match s with
  | String c s' => if isspace c then lstrip s' else s
  | EmptyString => EmptyString
  end.

(** [rstrip] keeps a character when something not blank follows or it is
    not white space itself. *)
Fixpoint rstrip (s : string) : string :=
  match s with
  | EmptyString => EmptyString
  | String c s' =>
      match rstrip s' with
      | EmptyString => if isspace c then EmptyString else String c EmptyString
      | r => String c r
      end
  end.

(** [s.strip()] *)
Definition strip (s : string) : string := rstrip (lstrip s).

(** [re.findall(r"[a-z0-9_]+", s)] *)
Definition is_tag_char (c : ascii) : bool :=
  let n := N_of_ascii c in
  ((97 <=? n)%N && (n <=? 122)%N) || ((48 <=? n)%N && (n <=? 57)%N)
  || (n =? 95)%N.

Definition findall_tag_tokens (s : string) : list string := runs is_tag_char s.

(** A word for [p]: not empty, every character satisfies [p]. *)
Fixpoint all_chars (p : ascii -> bool) (s : string) : bool :=
  match s with
  | EmptyString => true
  | String c s' => p c && all_chars p s'
  end.

Definition is_word (p : ascii -> bool) (w : string) : Prop :=
  w <> EmptyString /\ all_chars p w = true.

(** The marks of a normalised name: it is not empty, has no capital letter,
    and is its own words joined by single spaces. *)
Definition normalised (y : string) : Prop :=
  y <> EmptyString /\ lower y = y /\ join " " (split y) = y.

(** Texts of the examples are written with an apostrophe where the text has
    a double quote. *)
Fixpoint quoted (s : string) : string :=
  match s with
  | EmptyString => EmptyString
  | String c s' =>
      String (if Ascii.eqb c "'"%char then "034"%char else c) (quoted s')
  end.

Definition nl : string := String "010"%char EmptyString.

End PyStr.

(** ** JSON values and a model of [json.loads]

    The grammar is the one of Python's scanner: JSON, and the constants
    [NaN], [Infinity] and [-Infinity].  The interpreter's recursion limit
    and its limit on the number of digits of an integer are not modelled. *)

Module Json.

(** What [json.loads] builds: [None], [bool], [int], [float], [str],
    [list] and [dict].  A float keeps the text of its literal ([NaN],
    [Infinity] and [-Infinity] included); its value is never computed on by
    the sources, only printed back by [str]. *)
Inductive value : Type :=
| JNull
| JBool (b : bool)
| JInt (z : Z)
| JFloat (lit : string)
| JStr (s : string)
| JList (l : list value)
| JDict (d : list (string * value)).

(** [d.get(k)] on the dict built by [dict(pairs)]: the last pair wins. *)
Fixpoint dict_get (k : string) (d : list (string * value)) : option value :=
  match d with
  | [] => None
  | (k', v) :: d' =>
      match dict_get k d' with
      | Some v' => Some v'
      | None => if String.eqb k k' then Some v else None
      end
  end.

(** [k in d] *)
Definition dict_has (k : string) (d : list (string * value)) : bool :=
  match dict_get k d with Some _ => true | None => false end.

Definition is_ws (c : ascii) : bool :=
  Ascii.eqb c " "%char || Ascii.eqb c "009"%char
  || Ascii.eqb c "010"%char || Ascii.eqb c "013"%char.

Fixpoint skip_ws (s : string) : string :=
  match s with
  | String c s' => if is_ws c then skip_ws s' else s
  | EmptyString => EmptyString
  end.

Definition is_digit (c : ascii) : bool :=
  let n := N_of_ascii c in ((48 <=? n)%N && (n <=? 57)%N).

Definition hex_val (c : ascii) : option N :=
  let n := N_of_ascii c in
  if ((48 <=? n)%N && (n <=? 57)%N) then Some (n - 48)%N
  else if ((97 <=? n)%N && (n <=? 102)%N) then Some (n - 87)%N
  else if ((65 <=? n)%N && (n <=? 70)%N) then Some (n - 55)%N
  else None.

Definition hex4 (a b c d : ascii) : option N :=
  match hex_val a, hex_val b, hex_val c, hex_val d with
  | Some x, Some y, Some z, Some w => Some (((x * 16 + y) * 16 + z) * 16 + w)%N
  | _, _, _, _ => None
  end.

(** The bytes of a code point (UTF-8; a lone surrogate keeps its three
    bytes). *)
Definition utf8 (cp : N) : string :=
  let b (n : N) := ascii_of_N n in
  (if cp <? 128 then String (b cp) EmptyString
   else if cp <? 2048 then
     String (b (192 + cp / 64)) (String (b (128 + cp mod 64)) EmptyString)
   else if cp <? 65536 then
     String (b (224 + cp / 4096))
       (String (b (128 + (cp / 64) mod 64))
          (String (b (128 + cp mod 64)) EmptyString))
   else
     String (b (240 + cp / 262144))
       (String (b (128 + (cp / 4096) mod 64))
          (String (b (128 + (cp / 64) mod 64))
             (String (b (128 + cp mod 64)) EmptyString))))%N.

Definition is_high_surrogate (cp : N) : bool := (55296 <=? cp)%N && (cp <=? 56319)%N.
Definition is_low_surrogate (cp : N) : bool := (56320 <=? cp)%N && (cp <=? 57343)%N.
Definition join_surrogates (hi lo : N) : N :=
  (65536 + (hi - 55296) * 1024 + (lo - 56320))%N.

Definition simple_escape (c : ascii) : option ascii :=
  if Ascii.eqb c "034"%char then Some "034"%char
  else if Ascii.eqb c "\"%char then Some "\"%char
  else if Ascii.eqb c "/"%char then Some "/"%char
  else if Ascii.eqb c "b"%char then Some "008"%char
  else if Ascii.eqb c "f"%char then Some "012"%char
  else if Ascii.eqb c "n"%char then Some "010"%char
  else if Ascii.eqb c "r"%char then Some "013"%char
  else if Ascii.eqb c "t"%char then Some "009"%char
  else None.

(** [scanstring], entered after the opening quote (strict mode: a raw
    control character ends the parse with an error).  Returns the decoded
    string and what follows the closing quote. *)
Fixpoint scanstring (s : string) : option (string * string) :=
  match s with
  | EmptyString => None
  | String c r =>
      if Ascii.eqb c "034"%char then Some (EmptyString, r)
      else if Ascii.eqb c "\"%char then
        match r with
        | EmptyString => None
        | String e r1 =>
            if Ascii.eqb e "u"%char then
              match r1 with
              | String h1 (String h2 (String h3 (String h4 r5))) =>
                  match hex4 h1 h2 h3 h4 with
                  | None => None
                  | Some hi =>
                      let single :=
                        match scanstring r5 with
                        | Some (t, rest) => Some (String.append (utf8 hi) t, rest)
                        | None => None
                        end in
                      if is_high_surrogate hi then
                        match r5 with
                        | String b1 (String b2 (String g1 (String g2 (String g3 (String g4 r11))))) =>
                            if Ascii.eqb b1 "\"%char && Ascii.eqb b2 "u"%char then
                              match hex4 g1 g2 g3 g4 with
                              | None => None
                              | Some lo =>
                                  if is_low_surrogate lo then
                                    match scanstring r11 with
                                    | Some (t, rest) =>
                                        Some (String.append (utf8 (join_surrogates hi lo)) t, rest)
                                    | None => None
                                    end
                                  else single
                              end
                            else single
                        | _ => single
                        end
                      else single
                  end
              | _ => None
              end
            else
              match simple_escape e with
              | None => None
              | Some c' =>
                  match scanstring r1 with
                  | Some (t, rest) => Some (String c' t, rest)
                  | None => None
                  end
              end
        end
      else if (N_of_ascii c <? 32)%N then None
      else
        match scanstring r with
        | Some (t, rest) => Some (String c t, rest)
        | None => None
        end
  end.

(** The longest prefix of decimal digits and the rest. *)
Fixpoint span_digits (s : string) : string * string :=
  match s with
  | String c s' =>
      if is_digit c then
        let '(ds, rest) := span_digits s' in (String c ds, rest)
      else (EmptyString, s)
  | EmptyString => (EmptyString, EmptyString)
  end.

Fixpoint digits_value (acc : Z) (ds : string) : Z :=
  match ds with
  | String c ds' => digits_value (10 * acc + Z.of_N (N_of_ascii c - 48)) ds'
  | EmptyString => acc
  end.

(** The integer part of [NUMBER_RE]: [0] or a digit [1-9] and more digits. *)
Definition span_int (s : string) : option (string * string) :=
  match s with
  | String c s' =>
      if Ascii.eqb c "0"%char then Some (String c EmptyString, s')
      else if is_digit c then
        let '(ds, rest) := span_digits s' in Some (String c ds, rest)
      else None
  | EmptyString => None
  end.

(** The optional fraction: a dot and at least one digit. *)
Definition span_frac (s : string) : string * string :=
  match s with
  | String c s' =>
      if Ascii.eqb c "."%char then
        match span_digits s' with
        | (EmptyString, _) => (EmptyString, s)
        | (ds, rest) => (String c ds, rest)
        end
      else (EmptyString, s)
  | EmptyString => (EmptyString, s)
  end.

(** The optional exponent: [e] or [E], an optional sign, at least one digit. *)
Definition span_exp (s : string) : string * string :=
  match s with
  | String c s' =>
      if Ascii.eqb c "e"%char || Ascii.eqb c "E"%char then
        match s' with
        | String g s'' =>
            if Ascii.eqb g "+"%char || Ascii.eqb g "-"%char then
              match span_digits s'' with
              | (EmptyString, _) => (EmptyString, s)
              | (ds, rest) => (String c (String g ds), rest)
              end
            else
              match span_digits s' with
              | (EmptyString, _) => (EmptyString, s)
              | (ds, rest) => (String c ds, rest)
              end
        | EmptyString => (EmptyString, s)
        end
      else (EmptyString, s)
  | EmptyString => (EmptyString, s)
  end.

(** [NUMBER_RE.match]: an [int] when there is neither fraction nor
    exponent, a [float] otherwise. *)
Definition match_number (s : string) : option (value * string) :=
  let '(neg, s1) :=
    match s with
    | String c s' => if Ascii.eqb c "-"%char then (true, s') else (false, s)
    | EmptyString => (false, s)
    end in
  match span_int s1 with
  | None => None
  | Some (ip, s2) =>
      let '(fp, s3) := span_frac s2 in
      let '(ep, s4) := span_exp s3 in
      match fp, ep with
      | EmptyString, EmptyString =>
          let z := digits_value 0 ip in
          Some (JInt (if neg then (- z)%Z else z), s4)
      | _, _ =>
          let lit := String.append ip (String.append fp ep) in
          Some (JFloat (if neg then String "-"%char lit else lit), s4)
      end
  end.

(** [s.startswith(pre)], returning what follows the prefix. *)
Fixpoint drop_prefix (pre s : string) : option string :=
  match pre, s with
  | EmptyString, _ => Some s
  | String a pre', String b s' =>
      if Ascii.eqb a b then drop_prefix pre' s' else None
  | String _ _, EmptyString => None
  end.

Definition literal (word : string) (v : value) (s : string)
  : option (value * string) :=
  match drop_prefix word s with
  | Some rest => Some (v, rest)
  | None => None
  end.

(** The three scanning routines, each given the routines it calls.
    - [scan_once] is at the first character of a value; [members] and
      [elements] scan the rest of an object and of an array;
    - [JSONObject] is just after the opening quote of a member name;
    - [JSONArray] is at the first character of an array element. *)
Definition scan_once
    (members : string -> option (list (string * value) * string))
    (elements : string -> option (list value * string))
    (s : string) : option (value * string) :=
  match s with
  | EmptyString => None
  | String c r =>
      if Ascii.eqb c "034"%char then
        match scanstring r with
        | Some (t, rest) => Some (JStr t, rest)
        | None => None
        end
      else if Ascii.eqb c "{"%char then
        match skip_ws r with
        | String c1 r1 =>
            if Ascii.eqb c1 "}"%char then Some (JDict [], r1)
            else if Ascii.eqb c1 "034"%char then
              match members r1 with
              | Some (d, rest) => Some (JDict d, rest)
              | None => None
              end
            else None
        | EmptyString => None
        end
      else if Ascii.eqb c "["%char then
        match skip_ws r with
        | String c1 r1 =>
            if Ascii.eqb c1 "]"%char then Some (JList [], r1)
            else
              match elements (String c1 r1) with
              | Some (l, rest) => Some (JList l, rest)
              | None => None
              end
        | EmptyString => None
        end
      else
        match literal "null" JNull s with
        | Some out => Some out
        | None =>
        match literal "true" (JBool true) s with
        | Some out => Some out
        | None =>
        match literal "false" (JBool false) s with
        | Some out => Some out
        | None =>
        match match_number s with
        | Some out => Some out
        | None =>
        match literal "NaN" (JFloat "NaN") s with
        | Some out => Some out
        | None =>
        match literal "Infinity" (JFloat "Infinity") s with
        | Some out => Some out
        | None => literal "-Infinity" (JFloat "-Infinity") s
        end end end end end end
  end.

Definition JSONObject
    (value_at : string -> option (value * string))
    (members : string -> option (list (string * value) * string))
    (s : string) : option (list (string * value) * string) :=
  match scanstring s with
  | None => None
  | Some (key, r) =>
      match skip_ws r with
      | String c r1 =>
          if Ascii.eqb c ":"%char then
            match value_at (skip_ws r1) with
            | None => None
            | Some (v, r2) =>
                match skip_ws r2 with
                | String c2 r3 =>
                    if Ascii.eqb c2 "}"%char then Some ([(key, v)], r3)
                    else if Ascii.eqb c2 ","%char then
                      match skip_ws r3 with
                      | String c3 r4 =>
                          if Ascii.eqb c3 "034"%char then
                            match members r4 with
                            | Some (d, rest) => Some ((key, v) :: d, rest)
                            | None => None
                            end
                          else None
                      | EmptyString => None
                      end
                    else None
                | EmptyString => None
                end
            end
          else None
      | EmptyString => None
      end
  end.

Definition JSONArray
    (value_at : string -> option (value * string))
    (elements : string -> option (list value * string))
    (s : string) : option (list value * string) :=
  match value_at s with
  | None => None
  | Some (v, r) =>
      match skip_ws r with
      | String c r1 =>
          if Ascii.eqb c "]"%char then Some ([v], r1)
          else if Ascii.eqb c ","%char then
            match elements (skip_ws r1) with
            | Some (l, rest) => Some (v :: l, rest)
            | None => None
            end
          else None
      | EmptyString => None
      end
  end.

(** A routine shortens its input when it succeeds. *)
Definition shortens {A : Type} (p : string -> option (A * string)) : Prop :=
  forall x a r, p x = Some (a, r) -> String.length r < String.length x.

(** The scanner: the three routines calling each other, every call with
    one unit less of [fuel]; [json_loads] starts with more than any chain of
    calls over its text can use. *)
Fixpoint parse_value (fuel : nat) (s : string) {struct fuel}
  : option (value * string) :=
  match fuel with
  | O => None
  | S f => scan_once (parse_members f) (parse_elements f) s
  end
with parse_members (fuel : nat) (s : string) {struct fuel}
  : option (list (string * value) * string) :=
  match fuel with
  | O => None
  | S f => JSONObject (parse_value f) (parse_members f) s
  end
with parse_elements (fuel : nat) (s : string) {struct fuel}
  : option (list value * string) :=
  match fuel with
  | O => None
  | S f => JSONArray (parse_value f) (parse_elements f) s
  end.

(** [json.loads(s)]: one value between optional white space and nothing
    else; [None] stands for the [JSONDecodeError] it raises. *)
Definition json_loads (s : string) : option value :=
  match parse_value (2 * String.length s + 2) (skip_ws s) with
  | Some (v, rest) =>
      match skip_ws rest with
      | EmptyString => Some v
      | String _ _ => None
      end
  | None => None
  end.

End Json.

(** ** Builtins the sources call on floats and lists

    Printing and rounding of floats are Python builtins whose results depend
    on the binary representation; the sources only pass them on, so they are
    taken as given. *)

Class Builtins : Type := {
  (** [str(float(lit))] for the text [lit] of a JSON float literal *)
  str_float_literal : string -> string;
  (** [str(x)] for a float [x] *)
  str_float : R -> string;
  (** [f"{x:.2f}"] *)
  format_2f : R -> string;
  (** [f"{keys}"] for a list of strings *)
  repr_str_list : list string -> string;
  (** [round(x, ndigits)] *)
  round_ndigits : R -> nat -> R;
}.

(** ** metrics.py *)

Module Metrics.

Import PyStr Json.

Inductive decision : Type := APPROVE | REVISE.

Fixpoint upper (s : string) : string :=
  match s with
  | EmptyString => EmptyString
  | String c s' =>
      let n := N_of_ascii c in
      String (if ((97 <=? n)%N && (n <=? 122)%N) then ascii_of_N (n - 32) else c)
             (upper s')
  end.

(** [safe_json_loads]: the parsed value, or Python's [None] when
    [json.loads] raises. *)
Definition safe_json_loads (s : string) : value :=
  match json_loads s with
  | Some v => v
  | None => JNull
  end.

(** [_CANON_TAGS] *)
Definition CANON_TAGS : gset string :=
  list_to_set
    [ "duration"; "bytes"; "packets"; "src_ip"; "dst_ip"; "src_port"; "dst_port";
      "protocol"; "flags"; "entropy"; "dns"; "http"; "tls"; "ja3"; "user_agent";
      "flow_count"; "rate"; "iat"; "window"; "payload_len" ]%string.

(** The inner [to_tags] of [canonical_overlap]. *)
Definition to_tags (t : string) : gset string :=
  let t := lower t in
  let toks : gset string := list_to_set (findall_tag_tokens t) in
  filter (fun tok => tok ∈ CANON_TAGS) toks.

(** [canonical_overlap] *)
Definition canonical_overlap (text_a text_b : string) : option R :=
  let A := to_tags text_a in
  let B := to_tags text_b in
  if bool_decide (A = ∅) && bool_decide (B = ∅) then None
  else
    let denom := size (A ∪ B) in
    Some (if bool_decide (denom = 0%nat) then 0%R
          else (INR (size (A ∩ B)) / INR denom)%R).

(** [jaccard] *)
Definition jaccard (a b : gset string) : option R :=
  if bool_decide (a = ∅) && bool_decide (b = ∅) then None
  else
    let denom := size (a ∪ b) in
    Some (if bool_decide (denom = 0%nat) then 0%R
          else (INR (size (a ∩ b)) / INR denom)%R).

Section WithBuiltins.

Context `{Builtins}.

(** [isinstance(x, (str, int, float))]; a [bool] is an [int] in Python. *)
Definition is_str_int_float (x : value) : bool :=
  match x with
  | JStr _ | JInt _ | JFloat _ | JBool _ => true
  | JNull | JList _ | JDict _ => false
  end.

(** [str(x)] for the values that pass [is_str_int_float]. *)
Definition py_str (x : value) : string :=
  match x with
  | JStr s => s
  | JInt z => pretty z
  | JBool true => "True"
  | JBool false => "False"
  | JFloat lit => str_float_literal lit
  | JNull => "None"
  | JList _ | JDict _ => EmptyString
  end.

(** The local [norm]: [" ".join(str(x).lower().split())]. *)
Definition norm (x : value) : string :=
  join " " (split (lower (py_str x))).

(** The condition of the set comprehension. *)
Definition kept (x : value) : bool :=
  is_str_int_float x
  && negb (String.eqb (strip (py_str x)) EmptyString).

(** [extract_features_from_json] *)
Definition extract_features_from_json (s : string) : gset string :=
  match safe_json_loads s with
  | JDict d =>
      let feats :=
        match dict_get "features" d with
        | Some v => v
        | None => JList []
        end in
      match feats with
      | JList xs => list_to_set (List.map norm (List.filter kept xs))
      | _ => ∅
      end
  | _ => ∅
  end.

End WithBuiltins.

(** [critic_decision_from_json] *)
Definition critic_decision_from_json (s : string) : option decision :=
  match safe_json_loads s with
  | JDict d =>
      match dict_get "decision" d with
      | Some (JStr dec) =>
          let dec := upper (strip dec) in
          if String.eqb dec "APPROVE" then Some APPROVE
          else if String.eqb dec "REVISE" then Some REVISE
          else None
      | _ => None
      end
  | _ => None
  end.

(** [rounds_to_approval_json] *)
Definition rounds_to_approval_json (critic_json_text : string) : option nat :=
  match critic_decision_from_json critic_json_text with
  | Some APPROVE => Some 1%nat
  | _ => None
  end.

End Metrics.

(** ** mutual_influence_agents.py: the influence model and the trust tracker *)

Module Agents.

Import PyStr Json Metrics.
Local Open Scope R_scope.

(** [temperature_from_mu]; [None] is the [ZeroDivisionError] of the
    division. *)
Definition temperature_from_mu (mu T0 alpha : R) : option R :=
  let den := 1 + alpha * Rmax 0 mu in
  if Req_dec_T den 0 then None
  else
    let T := T0 / den in
    Some (Rmax 0.1 (Rmin 1.5 T)).

(** [lambda_from_mu] *)
Definition lambda_from_mu (mu k tau : R) : R :=
  1 / (1 + exp (- k * (mu - tau))).

(** The fields of [MutualInfluenceAssistant] the sources read;
    [system_message] is the text handed to the base class. *)
Record agent : Type := Agent {
  name : string;
  system_message : string;
  k : R;
  tau : R;
  alpha : R;
  prior : R;
  peer_scores : gmap string R;
}.

(** [__init__]: no peer has given feedback yet; [prior] defaults to 0.5. *)
Definition new_agent (name role_message : string) (k tau alpha : R) : agent :=
  Agent name
    (String.append
       "You are a helpful assistant collaborating with peers. Be concise and factual. When mutual influence μ is high, prefer peer-consistent reasoning and cite their key points; when low, be skeptical and justify divergences briefly. "
       role_message)
    k tau alpha 0.5 ∅.

(** [sum(self.peer_scores.values())] *)
Definition sum_scores (m : gmap string R) : R :=
  map_fold (fun _ v acc => acc + v) 0 m.

(** The property [mu]. *)
Definition mu (a : agent) : R :=
  if bool_decide (peer_scores a = ∅) then 0
  else sum_scores (peer_scores a) / INR (size (peer_scores a)).

(** [receive_feedback] *)
Definition receive_feedback (a : agent) (from_peer : string) (score beta : R)
  : agent :=
  let old := default (prior a) (peer_scores a !! from_peer) in
  let score := Rmax 0 (Rmin 1 score) in
  Agent (name a) (system_message a) (k a) (tau a) (alpha a) (prior a)
        (<[from_peer := (1 - beta) * old + beta * score]> (peer_scores a)).

(** A list of [(peer, score, beta)] feedback calls, applied in order. *)
Definition feedback_calls (a : agent) (calls : list (string * R * R)) : agent :=
  fold_left (fun a '(p, s, b) => receive_feedback a p s b) calls a.

(** *** The external text-generation service and [call] *)

(** One request: the agent's identity and system message, the sampling
    temperature of the client built for it, the forced JSON-object response
    format, and the task text. *)
Record request : Type := Request {
  req_agent : string;
  req_system_message : string;
  req_temperature : R;
  req_json_object : bool;
  req_task : string;
}.

(** The service is a black box: given the requests issued so far and a new
    one, it yields the content of the last message of the run, [None] when
    the run has no message or no content. *)
Class Service : Type := respond : list request -> request -> option string.

Inductive exn : Type := ZeroDivisionError.

Inductive outcome (A : Type) : Type :=
| Returned (a : A)
| Raised (e : exn).
Arguments Returned {A} a.
Arguments Raised {A} e.

(** Code that issues requests: it extends the log of requests and returns
    or raises. *)
Definition Svc (A : Type) : Type := list request -> outcome A * list request.

#[export] Instance svc_ret : MRet Svc := fun A a log => (Returned a, log).

#[export] Instance svc_bind : MBind Svc := fun A B f m log =>
  match m log with
  | (Returned a, log') => f a log'
  | (Raised e, log') => (Raised e, log')
  end.

Definition raise {A : Type} (e : exn) : Svc A := fun log => (Raised e, log).

Definition or_raise {A : Type} (e : exn) (o : option A) : Svc A :=
  match o with
  | Some a => mret a
  | None => raise e
  end.

Section Call.

Context `{Builtins} `{Service}.

(** [await self.run(task=task)] with the client rebuilt for [temperature],
    followed by [(out.messages[-1].content if out and out.messages else "") or ""]. *)
Definition reply (log : list request) (req : request) : string :=
  default EmptyString (respond log req).

Definition run (a : agent) (temperature : R) (task : string) : Svc string :=
  fun log =>
    let req := Request (name a) (system_message a) temperature true task in
    (Returned (reply log req), log ++ [req]).

(** [isinstance(d, dict) and k in d] *)
Definition has_key (d : value) (key : string) : bool :=
  match d with
  | JDict m => dict_has key m
  | _ => false
  end.

(** [missing] of [call] *)
Definition missing_keys (d : value) (require_keys : list string) : list string :=
  List.filter (fun key => negb (has_key d key)) require_keys.

(** The text parses as a JSON object that has every one of the keys. *)
Definition has_required_keys (require_keys : list string) (txt : string) : Prop :=
  exists d, json_loads txt = Some (JDict d)
            /\ Forall (fun key => is_Some (dict_get key d)) require_keys.

Definition influence_prefix (mu_val lam temp : R) : string :=
  String.append "[mutual_influence μ="
    (String.append (format_2f mu_val)
       (String.append ", mix λ="
          (String.append (format_2f lam)
             (String.append ", temp="
                (String.append (format_2f temp)
                   "] If μ is high, be peer-consistent; if μ is low, justify disagreements."))))).

(** The task of the repair round: [repair + "\n\nLast task:\n" + task]. *)
Definition repair_task (require_keys : list string) (task : string) : string :=
  String.append
    "Your previous output was not a valid JSON object with required keys. Required keys: "
    (String.append (repr_str_list require_keys)
       (String.append
          ". Return exactly one JSON object with those keys only. No explanations."
          (String.append nl (String.append nl
             (String.append "Last task:" (String.append nl task)))))).

(** The task and the temperature of a call (lines 70 to 81). *)
Definition prepare (a : agent) (task : string) (influenced : bool) (base_temp : R)
  : Svc (string * R) :=
  if influenced then
    let mu_val := mu a in
    let lam := lambda_from_mu mu_val (k a) (tau a) in
    temp ← or_raise ZeroDivisionError (temperature_from_mu mu_val 0.7 (alpha a));
    mret (String.append (influence_prefix mu_val lam temp)
            (String.append nl (String.append nl task)), temp)
  else mret (task, base_temp).

(** [call]; [require_keys=None] is the empty list. *)
Definition call (a : agent) (task : string) (influenced : bool) (base_temp : R)
    (require_keys : list string) : Svc string :=
  '(task, temperature) ← prepare a task influenced base_temp;
  txt ← run a temperature task;
  match require_keys with
  | [] => mret txt
  | _ :: _ =>
      let d := safe_json_loads txt in
      match missing_keys d require_keys with
      | [] => mret txt
      | _ :: _ =>
          run a temperature (repair_task require_keys task)
      end
  end.

End Call.

End Agents.

(** ** run_grid.py: one experiment pass *)

Module RunGrid.

Import PyStr Json Metrics Agents.
Local Open Scope R_scope.

(** The six prompt texts of [prompts(seed)]; their wording is not
    interpreted by the harness. *)
Record prompt_set : Type := PromptSet {
  P_planner_baseline : string;
  P_researcher_baseline : string;
  P_critic_baseline : string;
  P_planner_influenced : string;
  P_researcher_influenced : string;
  P_critic_influenced : string;
}.

Class Prompts : Type := prompts : Z -> prompt_set.

(** The dict returned by [one_pass]. *)
Record pass_record : Type := PassRecord {
  beta : R;
  k : R;
  tau : R;
  alpha : R;
  seed : Z;
  adversarial : Z;
  mu_planner : R;
  mu_researcher : R;
  mu_critic : R;
  RoundsToApproval_baseline : option nat;
  RoundsToApproval_influence : option nat;
  AgreementRate_baseline : option R;
  AgreementRate_influence : option R;
  RevisionDepth_between_rounds : nat;
  PlannerResearcher_Canonical_baseline : option R;
  PlannerResearcher_Canonical_influence : option R;
  Planner_SelfAgreement : option R;
  Researcher_SelfAgreement : option R;
  planner_baseline : string;
  researcher_baseline : string;
  critic_baseline : string;
  planner_influence : string;
  researcher_influence : string;
  critic_influence : string;
}.

(** The order of Python strings, character code by character code. *)
Definition str_le (a b : string) : Prop := String.leb a b = true.

#[export] Instance str_le_dec : RelDecision str_le :=
  fun a b => decide (String.leb a b = true).

(** [sorted(X)] for a set of strings. *)
Definition sorted (X : gset string) : list string :=
  merge_sort str_le (elements X).

Section OnePass.

Context `{Builtins} `{Service} `{Prompts}.

(** [None if x is None else round(x, n)] *)
Definition round_opt (x : option R) (n : nat) : option R :=
  match x with
  | Some v => Some (round_ndigits v n)
  | None => None
  end.

(** The critic prompt of either round with the two outputs embedded. *)
Definition critic_prompt (rubric p r : string) : string :=
  String.append rubric
    (String.append nl (String.append "PLANNER:" (String.append nl
       (String.append p (String.append nl (String.append nl
          (String.append "RESEARCHER:" (String.append nl
             (String.append r nl))))))))).

(** The planner prompt of round 2, constrained to the researcher's baseline
    features when there are any. *)
Definition planner_influenced_prompt (P : prompt_set) (RF1 : gset string) : string :=
  let researcher_feats_str :=
    if bool_decide (RF1 = ∅) then EmptyString else join ", " (sorted RF1) in
  match researcher_feats_str with
  | EmptyString => P_planner_influenced P
  | _ =>
      String.append (P_planner_influenced P)
        (String.append nl (String.append nl
           (String.append
              "Constraint: Use EXACTLY these three features from Researcher baseline (use exact tokens, same order not required): ["
              (String.append researcher_feats_str "]. Do not rename them."))))
  end.

(** The simulated peer feedback of lines 166 to 177. *)
Definition feedback_planner (adv : bool) (beta : R) (planner : agent) : agent :=
  let planner :=
    if adv then receive_feedback planner "critic" 0.1 beta
    else receive_feedback planner "critic" 0.9 beta in
  receive_feedback planner "researcher" 0.8 beta.

Definition feedback_researcher (adv : bool) (beta : R) (researcher : agent) : agent :=
  let researcher :=
    if adv then receive_feedback researcher "critic" 0.1 beta
    else receive_feedback researcher "critic" 0.7 beta in
  receive_feedback researcher "planner" 0.85 beta.

Definition feedback_critic (adv : bool) (beta : R) (critic : agent) : agent :=
  let critic :=
    receive_feedback critic "planner" (if negb adv then 0.8 else 0.4) beta in
  receive_feedback critic "researcher" (if negb adv then 0.75 else 0.4) beta.

(** [one_pass]; the debug dumps only print and are left out. *)
Definition one_pass (beta k tau alpha : R) (seed : Z) (adversarial : bool)
  : Svc pass_record :=
  let planner :=
    new_agent "planner" "Role: Planner. Short prioritized plan." k tau alpha in
  let researcher :=
    new_agent "researcher"
      "Role: Researcher. List concise streaming features and brief reasons."
      k tau alpha in
  let critic :=
    new_agent "critic"
      "Role: Critic. Point gaps/risks. Reply 'APPROVE' if sufficient."
      k tau alpha in
  let P := prompts seed in
  p1 ← call planner (P_planner_baseline P) false 0.2 [];
  r1 ← call researcher (P_researcher_baseline P) false 0.2 [];
  c1 ← call critic (critic_prompt (P_critic_baseline P) p1 r1) false 0.2 [];
  let planner := feedback_planner adversarial beta planner in
  let researcher := feedback_researcher adversarial beta researcher in
  let critic := feedback_critic adversarial beta critic in
  let RF1 := extract_features_from_json r1 in
  p2 ← call planner (planner_influenced_prompt P RF1) true 0.2 [];
  r2 ← call researcher (P_researcher_influenced P) true 0.2 [];
  c2 ← call critic (critic_prompt (P_critic_influenced P) p2 r2) true 0.2 [];
  let PF1 := extract_features_from_json p1 in
  let RF1 := extract_features_from_json r1 in
  let PF2 := extract_features_from_json p2 in
  let RF2 := extract_features_from_json r2 in
  let agr1 := jaccard PF1 RF1 in
  let agr2 := jaccard PF2 RF2 in
  let planner_self_agree := jaccard PF1 PF2 in
  let researcher_self_agree := jaccard RF1 RF2 in
  let dec1 := critic_decision_from_json c1 in
  let dec2 := critic_decision_from_json c2 in
  let rA1 := match dec1 with Some APPROVE => Some 1%nat | _ => None end in
  let rA2 := match dec2 with Some APPROVE => Some 1%nat | _ => None end in
  let revd := size ((PF2 ∪ RF2) ∖ (PF1 ∪ RF1)) in
  let planner_researcher_can_baseline := canonical_overlap p1 r1 in
  let planner_researcher_can_infl := canonical_overlap p2 r2 in
  mret {|
    beta := beta; k := k; tau := tau; alpha := alpha; seed := seed;
    adversarial := if adversarial then 1%Z else 0%Z;
    mu_planner := round_ndigits (mu planner) 4;
    mu_researcher := round_ndigits (mu researcher) 4;
    mu_critic := round_ndigits (mu critic) 4;
    RoundsToApproval_baseline := rA1;
    RoundsToApproval_influence := rA2;
    AgreementRate_baseline := round_opt agr1 4;
    AgreementRate_influence := round_opt agr2 4;
    RevisionDepth_between_rounds := revd;
    PlannerResearcher_Canonical_baseline := round_opt planner_researcher_can_baseline 3;
    PlannerResearcher_Canonical_influence := round_opt planner_researcher_can_infl 3;
    Planner_SelfAgreement := round_opt planner_self_agree 3;
    Researcher_SelfAgreement := round_opt researcher_self_agree 3;
    planner_baseline := p1;
    researcher_baseline := r1;
    critic_baseline := c1;
    planner_influence := p2;
    researcher_influence := r2;
    critic_influence := c2;
  |}.

End OnePass.

End RunGrid.

(** ** run_grid_parallel.py: the resumable sweep *)

Module RunGridParallel.

Import PyStr Json Metrics Agents RunGrid.
Local Open Scope R_scope.

(** A task: the tuple [(beta, k, tau, alpha, seed, adversarial)]. *)
Definition params : Type := (R * R * R * R * Z * bool)%type.

#[export] Instance R_eq_dec : EqDecision R := Req_dec_T.

(** The module-level configuration. *)
Record config : Type := Config {
  GRID_beta : list R;
  GRID_k : list R;
  GRID_tau : list R;
  GRID_alpha : list R;
  SEEDS : list Z;
  ADVERSARIAL : list bool;
  MAX_CONCURRENCY : nat;
  TIME_BUDGET_S : option R;
  RESUME_ENABLED : bool;
  SHUFFLE_TASKS : bool;
}.

(** The values of the source file. *)
Definition source_config : config := {|
  GRID_beta := [0.2; 0.4; 0.6; 0.8];
  GRID_k := [3; 6];
  GRID_tau := [0.3; 0.5; 0.7];
  GRID_alpha := [0.4; 0.8; 1.2];
  SEEDS := [1; 2; 3; 4; 5]%Z;
  ADVERSARIAL := [false; true];
  MAX_CONCURRENCY := 4;
  TIME_BUDGET_S := Some (20 * 60);
  RESUME_ENABLED := true;
  SHUFFLE_TASKS := true;
|}.

Definition FIELDNAMES : list string :=
  [ "beta"; "k"; "tau"; "alpha"; "seed"; "adversarial";
    "mu_planner"; "mu_researcher"; "mu_critic";
    "RoundsToApproval_baseline"; "RoundsToApproval_influence";
    "AgreementRate_baseline"; "AgreementRate_influence";
    "RevisionDepth_between_rounds";
    "PlannerResearcher_Canonical_baseline"; "PlannerResearcher_Canonical_influence";
    "Planner_SelfAgreement"; "Researcher_SelfAgreement" ]%string.

(** [random.shuffle] after [random.seed(1234)]: some rearrangement of the
    list. *)
Class Random : Type := {
  shuffle : list params -> list params;
  shuffle_permutation : forall l, shuffle l ≡ₚ l;
}.

(** [time.time()]: the reading of the n-th call. *)
Class Clock : Type := time_time : nat -> R.

(** [itertools.product] of the six axes, the last axis varying fastest. *)
Definition grid_product (cfg : config) : list params :=
  b ← GRID_beta cfg; k ← GRID_k cfg; t ← GRID_tau cfg; a ← GRID_alpha cfg;
  s ← SEEDS cfg; adv ← ADVERSARIAL cfg; [(b, k, t, a, s, adv)].

(** [build_tasks] *)
Definition build_tasks `{Random} (cfg : config) : list params :=
  let tasks := grid_product cfg in
  if SHUFFLE_TASKS cfg then shuffle tasks else tasks.

(** *** Reading numbers back from the store *)

(** [digitpart]: digits, single underscores allowed between two digits.
    Returns the digits and what follows them. *)
Fixpoint digitpart (s : string) : string * string :=
  match s with
  | String c s' =>
      if is_digit c then
        match s' with
        | String u t =>
            if Ascii.eqb u "_"%char && starts_with is_digit t then
              let '(ds, rest) := digitpart t in (String c ds, rest)
            else
              let '(ds, rest) := digitpart s' in (String c ds, rest)
        | EmptyString => (String c EmptyString, EmptyString)
        end
      else (EmptyString, s)
  | EmptyString => (EmptyString, EmptyString)
  end.

(** An optional sign: [true] for minus. *)
Definition take_sign (s : string) : bool * string :=
  match s with
  | String c s' =>
      if Ascii.eqb c "-"%char then (true, s')
      else if Ascii.eqb c "+"%char then (false, s')
      else (false, s)
  | EmptyString => (false, s)
  end.

(** The exponent after the number: nothing left is exponent 0; otherwise
    [e] or [E], an optional sign and a digitpart up to the end. *)
Definition parse_exponent (s : string) : option Z :=
  match s with
  | EmptyString => Some 0%Z
  | String c s' =>
      if Ascii.eqb c "e"%char || Ascii.eqb c "E"%char then
        let '(neg, s1) := take_sign s' in
        match digitpart s1 with
        | (EmptyString, _) => None
        | (ds, EmptyString) =>
            let e := digits_value 0 ds in Some (if neg then (- e)%Z else e)
        | (_, String _ _) => None
        end
      else None
  end.

(** A decimal numeral as Python's [float] reads it: sign, digits of integer
    and fraction part together, and the power of ten they are scaled by.
    [inf] and [nan] (which [float] also reads) are not real numbers and are
    not read here. *)
Definition parse_decimal (s : string) : option (bool * Z * Z) :=
  let '(neg, s1) := take_sign (strip s) in
  let '(ip, s2) := digitpart s1 in
  let after_point :=
    match s2 with
    | String c s3 =>
        if Ascii.eqb c "."%char then
          let '(fp, s4) := digitpart s3 in Some (fp, s4)
        else None
    | EmptyString => None
    end in
  let number :=
    match ip, after_point with
    | EmptyString, None => None
    | EmptyString, Some (EmptyString, _) => None
    | _, Some (fp, s4) => Some (fp, s4)
    | _, None => Some (EmptyString, s2)
    end in
  match number with
  | None => None
  | Some (fp, rest) =>
      match parse_exponent rest with
      | None => None
      | Some e =>
          Some (neg, digits_value 0 (String.append ip fp),
                (e - Z.of_nat (String.length fp))%Z)
      end
  end.

Definition pow10 (e : Z) : R :=
  match e with
  | Z0 => 1
  | Zpos p => 10 ^ Pos.to_nat p
  | Zneg p => / 10 ^ Pos.to_nat p
  end.

(** [float(s)]; [None] is the [ValueError]. *)
Definition parse_float (s : string) : option R :=
  match parse_decimal s with
  | Some (neg, m, e) =>
      let v := IZR m * pow10 e in Some (if neg then - v else v)
  | None => None
  end.

(** [int(s)]; [None] is the [ValueError]. *)
Definition parse_int (s : string) : option Z :=
  let '(neg, s1) := take_sign (strip s) in
  match digitpart s1 with
  | (EmptyString, _) => None
  | (ds, EmptyString) =>
      let z := digits_value 0 ds in Some (if neg then (- z)%Z else z)
  | (_, String _ _) => None
  end.

(** *** The result store *)

(** The CSV file as its rows of fields, the header row first. *)
Definition csv_row : Type := list string.
Definition csv_file : Type := list csv_row.

(** One row of [csv.DictReader]: the header's names paired with the row's
    fields; names beyond the row's length get [None]. *)
Definition row_dict (header : csv_row) (row : csv_row) : list (string * option string) :=
  zip header (List.map Some row)
  ++ List.map (fun name => (name, None)) (drop (length row) header).

(** The rows [csv.DictReader] yields: blank rows are skipped. *)
Definition dict_reader (f : csv_file) : list (list (string * option string)) :=
  match f with
  | [] => []
  | header :: rows =>
      List.map (row_dict header)
        (List.filter (fun row => negb (Nat.eqb (length row) 0)) rows)
  end.

(** [row[name]]; the last pair of a name wins; [None] is the [KeyError]. *)
Fixpoint row_get (name : string) (d : list (string * option string))
  : option (option string) :=
  match d with
  | [] => None
  | (n, v) :: d' =>
      match row_get name d' with
      | Some v' => Some v'
      | None => if String.eqb name n then Some v else None
      end
  end.

(** A field that is there and is text, else the exception that skips the
    row. *)
Definition field (name : string) (d : list (string * option string)) : option string :=
  match row_get name d with
  | Some (Some s) => Some s
  | _ => None
  end.

(** The key of a stored row (the body of the inner [try]). *)
Definition row_key (d : list (string * option string)) : option params :=
  b ← field "beta" d ≫= parse_float;
  k ← field "k" d ≫= parse_float;
  t ← field "tau" d ≫= parse_float;
  a ← field "alpha" d ≫= parse_float;
  s ← field "seed" d ≫= parse_int;
  adv ← field "adversarial" d ≫= parse_int;
  Some (b, k, t, a, s, negb (Z.eqb adv 0)).

(** [read_done_keys]; [None] is a path that does not exist.  The keys are
    listed in file order (the source collects them in a set). *)
Definition read_done_keys (cfg : config) (store : option csv_file) : list params :=
  if negb (RESUME_ENABLED cfg) then []
  else
    match store with
    | None => []
    | Some f => omap row_key (dict_reader f)
    end.

(** [ensure_header] *)
Definition ensure_header (store : option csv_file) : option csv_file :=
  match store with
  | None | Some [] => Some [FIELDNAMES]
  | Some f => Some f
  end.

(** *** The runner *)

(** What the sweep acts on: the store, the number of clock readings taken,
    the requests sent to the service, and (a ghost of the model) the tasks
    for which a pass was started, in order. *)
Record world : Type := World {
  store : option csv_file;
  ticks : nat;
  requests : list request;
  started : list params;
}.

Definition W (A : Type) : Type := world -> A * world.

Section Runner.

Context `{Builtins} `{Service} `{Prompts} `{Random} `{Clock}.

Definition opt_str {A : Type} (f : A -> string) (x : option A) : string :=
  match x with
  | Some v => f v
  | None => EmptyString
  end.

(** The row [csv.DictWriter] writes for [short]: each field through [str],
    [None] as the empty field. *)
Definition short_row (out : pass_record) : csv_row :=
  [ str_float (RunGrid.beta out); str_float (RunGrid.k out);
    str_float (RunGrid.tau out); str_float (RunGrid.alpha out);
    pretty (RunGrid.seed out); pretty (RunGrid.adversarial out);
    str_float (mu_planner out); str_float (mu_researcher out);
    str_float (mu_critic out);
    opt_str pretty (RoundsToApproval_baseline out);
    opt_str pretty (RoundsToApproval_influence out);
    opt_str str_float (AgreementRate_baseline out);
    opt_str str_float (AgreementRate_influence out);
    pretty (RevisionDepth_between_rounds out);
    opt_str str_float (PlannerResearcher_Canonical_baseline out);
    opt_str str_float (PlannerResearcher_Canonical_influence out);
    opt_str str_float (Planner_SelfAgreement out);
    opt_str str_float (Researcher_SelfAgreement out) ].

(** [time.time()] *)
Definition now : W R := fun w =>
  (time_time (ticks w),
   World (store w) (S (ticks w)) (requests w) (started w)).

(** [run_one]: the pass, then the append of its row; an exception of the
    pass is printed and nothing is written. *)
Definition run_one (p : params) : W unit := fun w =>
  let '(b, k, t, a, s, adv) := p in
  let started' := started w ++ [p] in
  match one_pass b k t a s adv (requests w) with
  | (Returned out, log') =>
      (tt, World (Some (default [] (store w) ++ [short_row out]))
                 (ticks w) log' started')
  | (Raised _, log') => (tt, World (store w) (ticks w) log' started')
  end.

(** The loop of [main] over [todo]; returns [completed]. *)
Fixpoint run_loop (cfg : config) (start : R) (todo : list params)
    (completed : nat) : W nat := fun w =>
  match todo with
  | [] => (completed, w)
  | p :: rest =>
      let '(over, w1) :=
        match TIME_BUDGET_S cfg with
        | None => (false, w)
        | Some budget =>
            let '(t, w1) := now w in
            (if Rgt_dec (t - start) budget then true else false, w1)
        end in
      if over then (completed, w1)
      else
        let '(_, w2) := run_one p w1 in
        run_loop cfg start rest (S completed) w2
  end.

(** [main]; returns [completed].  The passes are awaited one after the
    other, so the semaphore and the writer lock are never contended. *)
Definition main (cfg : config) : W nat := fun w =>
  let tasks := build_tasks cfg in
  let done := read_done_keys cfg (store w) in
  let todo := List.filter (fun p => bool_decide (p ∉ done)) tasks in
  let w := World (ensure_header (store w)) (ticks w) (requests w) (started w) in
  let '(start, w) := now w in
  let '(completed, w) := run_loop cfg start todo 0 w in
  let '(_, w) := now w in
  (completed, w).

(** No reading of the clock is further from the one [main] starts with than
    the budget allows (nothing to ask when there is no budget). *)
Definition within_budget (cfg : config) (w : world) : Prop :=
  match TIME_BUDGET_S cfg with
  | None => True
  | Some budget => forall n, time_time n - time_time (ticks w) <= budget
  end.

End Runner.

End RunGridParallel.

(** ** run_grid.py: the debug helper and the sequential sweep *)

Module RunGridSweep.

Import PyStr Json Metrics Agents RunGrid RunGridParallel.
Local Open Scope R_scope.

(** [_short] on a [str]: a text longer than [n] characters is cut to its
    first [n] characters and marked. *)
Definition _short (s : string) (n : nat) : string :=
  if (String.length s <=? n)%nat then s
  else String.append (String.substring 0 n s) " ...[truncated]".

(** The module-level [GRID] and [SEEDS]. *)
Record grid : Type := Grid {
  GRID_beta : list R;
  GRID_k : list R;
  GRID_tau : list R;
  GRID_alpha : list R;
  SEEDS : list Z;
}.

(** The values of the source file. *)
Definition source_grid : grid := {|
  GRID_beta := [0.3];
  GRID_k := [3];
  GRID_tau := [0.4; 0.5];
  GRID_alpha := [0.4; 0.8; 1.2];
  SEEDS := [1]%Z;
|}.

Section Sweep.

Context `{Builtins} `{Service} `{Prompts}.

(** A [for] loop whose body appends to [rows]: the rows appended, in
    order; an exception of the body ends the loop. *)
Fixpoint for_each {A : Type} (xs : list A) (body : A -> Svc (list pass_record))
  : Svc (list pass_record) :=
  match xs with
  | [] => mret []
  | x :: xs' =>
      rows ← body x;
      rest ← for_each xs' body;
      mret (rows ++ rest)
  end.

(** The six nested loops of [main]. *)
Definition collect (g : grid) : Svc (list pass_record) :=
  for_each [false; true] (fun adv =>
  for_each (GRID_beta g) (fun beta =>
  for_each (GRID_k g) (fun k =>
  for_each (GRID_tau g) (fun tau =>
  for_each (GRID_alpha g) (fun alpha =>
  for_each (SEEDS g) (fun seed =>
    out ← one_pass beta k tau alpha seed adv;
    mret [out])))))).

(** [main] on the store and the requests sent so far: the file is opened
    for writing only after all passes have returned; the fields written
    are those of the sweep with resume, which has the same [fieldnames]. *)
Definition main (g : grid) (st : option csv_file) (log : list request)
  : outcome unit * (option csv_file * list request) :=
  match collect g log with
  | (Returned rows, log') =>
      (Returned tt, (Some (FIELDNAMES :: List.map short_row rows), log'))
  | (Raised e, log') => (Raised e, (st, log'))
  end.

End Sweep.

End RunGridSweep.

(** ** metrics.py: the legacy approval detector *)

Module MetricsLegacy.

Import PyStr Json Metrics.

(** [\w] on ASCII text: a letter, a digit or the underscore. *)
Definition is_word_char (c : ascii) : bool :=
  let n := N_of_ascii c in
  ((48 <=? n)%N && (n <=? 57)%N) || ((65 <=? n)%N && (n <=? 90)%N)
  || ((97 <=? n)%N && (n <=? 122)%N) || (n =? 95)%N.

(** [re.search(r"\bAPPROVE\b", s) is not None].  [before] tells whether
    the character before [s] is a word character: the first [\b] asks for
    none there, the second for none after the word. *)
Fixpoint search_APPROVE (before : bool) (s : string) : bool :=
  match s with
  | EmptyString => false
  | String c s' =>
      (negb before
       && match drop_prefix "APPROVE" s with
          | Some rest => negb (starts_with is_word_char rest)
          | None => false
          end)
      || search_APPROVE (is_word_char c) s'
  end.

(** [rounds_to_approval] on a [str]. *)
Definition rounds_to_approval (critic_text : string) : option nat :=
  if search_APPROVE false (upper critic_text) then Some 1%nat else None.

(** Whether the text [pre] ends in a word character, [before] being the
    answer for the empty text. *)
Fixpoint word_before (before : bool) (pre : string) : bool :=
  match pre with
  | EmptyString => before
  | String c pre' => word_before (is_word_char c) pre'
  end.

End MetricsLegacy.

(** ** InfluenceTestAI.py: the trust tracker of the demonstration *)

Module InfluenceTestAI.

Local Open Scope R_scope.

(** The property [mu] over [self.peer_scores]. *)
Definition mu (peer_scores : gmap string R) : R :=
  if bool_decide (peer_scores = ∅) then 0
  else Agents.sum_scores peer_scores / INR (size peer_scores).

(** [receive_feedback]: what it leaves in [self.peer_scores]; a peer not
    heard from counts as 0. *)
Definition receive_feedback (peer_scores : gmap string R) (from_peer : string)
    (score beta : R) : gmap string R :=
  let score := Rmax 0 (Rmin 1 score) in
  let old := default 0 (peer_scores !! from_peer) in
  <[from_peer := (1 - beta) * old + beta * score]> peer_scores.

End InfluenceTestAI.

(** ** Fixed collaborators for the concrete runs of the properties below *)

Module Scenario.

Import PyStr Json Metrics Agents RunGrid RunGridParallel.
Local Open Scope R_scope.

(** Builtins that print nothing and round nothing. *)
Definition plain_builtins : Builtins := {|
  str_float_literal := fun lit => lit;
  str_float := fun _ => EmptyString;
  format_2f := fun _ => EmptyString;
  repr_str_list := fun _ => EmptyString;
  round_ndigits := fun x _ => x;
|}.

Definition empty_prompts : Prompts := fun _ =>
  PromptSet EmptyString EmptyString EmptyString EmptyString EmptyString EmptyString.

(** A service whose first three replies (round 1) list the features rate
    and iat and whose later replies (round 2) list rate alone. *)
Definition shrinking_service : Service := fun log _ =>
  if (length log <? 3)%nat then Some (quoted "{'features':['rate','iat']}")
  else Some (quoted "{'features':['rate']}").

(** A service that first answers with prose and then with an object. *)
Definition prose_then_object_service : Service := fun log _ =>
  match log with
  | [] => Some "Sure, here is the plan."%string
  | _ :: _ => Some (quoted "{'features':['rate'],'steps':[]}")
  end.

(** A shuffle that leaves the list as it is, and a clock that stands still. *)
Definition identity_shuffle : Random := {|
  shuffle := fun l => l;
  shuffle_permutation := fun l => reflexivity l;
|}.

Definition still_clock : Clock := fun _ => 0.

(** A grid of two tasks that differ in the seed, and a store that already
    holds the row of the first. *)
Definition two_task_config : config := {|
  GRID_beta := [0.2];
  GRID_k := [3];
  GRID_tau := [0.3];
  GRID_alpha := [0.4];
  SEEDS := [1; 2]%Z;
  ADVERSARIAL := [false];
  MAX_CONCURRENCY := 4;
  TIME_BUDGET_S := Some (20 * 60);
  RESUME_ENABLED := true;
  SHUFFLE_TASKS := true;
|}.

Definition T1 : params := (0.2, 3, 0.3, 0.4, 1%Z, false).
Definition T2 : params := (0.2, 3, 0.3, 0.4, 2%Z, false).

Definition store_with_T1 : option csv_file :=
  Some [ FIELDNAMES;
         [ "0.2"; "3.0"; "0.3"; "0.4"; "1"; "0"; "0.83"; "0.785"; "0.775";
           "1"; ""; "1.0"; "0.5"; "2"; "0.667"; "1.0"; "0.2"; "0.5" ]%string ].

Definition world_with_T1 : world := World store_with_T1 0 [] [].

End Scenario.

(** ** Collaborators for the runs that write a row and read it back *)

Module RoundTripScenario.

Import PyStr Json Metrics Agents RunGrid RunGridParallel.
Local Open Scope R_scope.

(** Builtins whose [str] of a float is always the text of one half. *)
Definition half_builtins : Builtins := {|
  str_float_literal := fun lit => lit;
  str_float := fun _ => "0.5"%string;
  format_2f := fun _ => EmptyString;
  repr_str_list := fun _ => EmptyString;
  round_ndigits := fun x _ => x;
|}.

(** A grid of one task, every float of which is one half, and no store. *)
Definition half_config : config := {|
  GRID_beta := [0.5];
  GRID_k := [0.5];
  GRID_tau := [0.5];
  GRID_alpha := [0.5];
  SEEDS := [7]%Z;
  ADVERSARIAL := [true];
  MAX_CONCURRENCY := 4;
  TIME_BUDGET_S := None;
  RESUME_ENABLED := true;
  SHUFFLE_TASKS := false;
|}.

Definition no_store : world := World None 0 [] [].

End RoundTripScenario.
(** * Properties of the embedded program *)

(** ** Set similarity *)

Section JaccardFacts.

Import PyStr Json Metrics.
Local Open Scope R_scope.

Lemma both_empty_false (a b : gset string) :
  bool_decide (a = ∅) && bool_decide (b = ∅) = false <-> ~ (a = ∅ /\ b = ∅).
Proof.
  rewrite andb_false_iff, !bool_decide_eq_false. split.
  - intros [Ha | Hb] [? ?]; contradiction.
  - intros Hn. destruct (decide (a = ∅)) as [-> |]; [right | left]; auto.
Qed.

Lemma union_size_pos (a b : gset string) :
  ~ (a = ∅ /\ b = ∅) -> size (a ∪ b) <> 0%nat.
Proof.
  intros Hn Hz. apply size_empty_inv in Hz. apply Hn.
  split; apply leibniz_equiv; set_solver.
Qed.

(** A pair of sets with a non-empty union is scored by the two counts. *)
Lemma jaccard_counts (a b : gset string) (n d : nat) :
  size (a ∩ b) = n -> size (a ∪ b) = S d ->
  jaccard a b = Some (INR n / INR (S d)).
Proof.
  intros Hi Hu. unfold jaccard.
  assert (Hne : ~ (a = ∅ /\ b = ∅)).
  { intros [-> ->]. rewrite union_empty_r_L, size_empty in Hu. discriminate. }
  apply both_empty_false in Hne. rewrite Hne, Hi, Hu.
  rewrite bool_decide_eq_false_2 by discriminate. reflexivity.
Qed.

(** C4. [jaccard] is undefined exactly on two empty sets; on every other
    pair it is the size of the intersection over the size of the union,
    whose size is then not zero (the guard for a zero denominator is never
    taken); one common element of two singletons scores 1, two different
    elements score 0. *)
Theorem jaccard_undefined_iff_both_empty (a b : gset string) :
  (jaccard a b = None <-> (a = ∅ /\ b = ∅))
  /\ (~ (a = ∅ /\ b = ∅) ->
      size (a ∪ b) <> 0%nat
      /\ jaccard a b = Some (INR (size (a ∩ b)) / INR (size (a ∪ b))))
  /\ jaccard {[ "a"%string ]} {[ "a"%string ]} = Some 1
  /\ jaccard {[ "a"%string ]} {[ "b"%string ]} = Some 0.
Proof.
  split; [| split; [| split]].
  - unfold jaccard. split.
    + destruct (bool_decide (a = ∅) && bool_decide (b = ∅)) eqn:E; [| discriminate].
      intros _. apply andb_true_iff in E as [Ha Hb].
      split; eapply bool_decide_eq_true_1; eassumption.
    + intros [-> ->]. rewrite !bool_decide_eq_true_2 by reflexivity. reflexivity.
  - intros Hn. pose proof (union_size_pos a b Hn) as Hpos. split; [exact Hpos |].
    destruct (size (a ∪ b)) as [| d] eqn:Hu; [contradiction |].
    now apply jaccard_counts.
  - rewrite (jaccard_counts _ _ 1 0) by (vm_compute; reflexivity).
    f_equal. simpl. lra.
  - rewrite (jaccard_counts _ _ 0 1) by (vm_compute; reflexivity).
    f_equal. simpl. lra.
Qed.

(** [canonical_overlap] is [jaccard] of the two filtered token sets. *)
Lemma canonical_overlap_is_jaccard (text_a text_b : string) :
  canonical_overlap text_a text_b = jaccard (to_tags text_a) (to_tags text_b).
Proof. reflexivity. Qed.

(** A token is kept when it is a run of [a-z0-9_] of the lowered text and
    belongs to the vocabulary. *)
Lemma elem_of_to_tags (t tok : string) :
  tok ∈ to_tags t <-> tok ∈ findall_tag_tokens (lower t) /\ tok ∈ CANON_TAGS.
Proof.
  unfold to_tags. rewrite elem_of_filter, elem_of_list_to_set. tauto.
Qed.

(** C1, as the code has it. The vocabulary has 20 tokens and [flow] is not
    one of them ([flow_count] is), so the two texts keep {entropy, tls} and
    {entropy, http}: the intersection is {entropy}, the union
    {entropy, tls, http}, and the overlap is 1/3. *)
Theorem canonical_overlap_entropy_example :
  (forall text_a text_b,
     canonical_overlap text_a text_b = jaccard (to_tags text_a) (to_tags text_b))
  /\ (forall t tok,
        tok ∈ to_tags t <-> tok ∈ findall_tag_tokens (lower t) /\ tok ∈ CANON_TAGS)
  /\ size CANON_TAGS = 20%nat
  /\ ("flow"%string ∉ CANON_TAGS)
  /\ to_tags "entropy tls flow" = {[ "entropy"; "tls" ]}%string
  /\ to_tags "entropy http flow" = {[ "entropy"; "http" ]}%string
  /\ to_tags "entropy tls flow" ∩ to_tags "entropy http flow" = {[ "entropy"%string ]}
  /\ to_tags "entropy tls flow" ∪ to_tags "entropy http flow"
     = {[ "entropy"; "tls"; "http" ]}%string
  /\ canonical_overlap "entropy tls flow" "entropy http flow" = Some (1 / 3).
Proof.
  split; [exact canonical_overlap_is_jaccard |].
  split; [exact elem_of_to_tags |].
  split; [vm_compute; reflexivity |].
  split.
  { intros Hin. apply (bool_decide_eq_true_2 _) in Hin.
    vm_compute in Hin. discriminate. }
  do 4 (split; [vm_compute; reflexivity |]).
  rewrite canonical_overlap_is_jaccard.
  rewrite (jaccard_counts _ _ 1 2) by (vm_compute; reflexivity).
  f_equal. simpl. lra.
Qed.

(** C1, as stated: the overlap of the two texts is not 2/3. *)
Lemma canonical_overlap_entropy_not_two_thirds :
  canonical_overlap "entropy tls flow" "entropy http flow" <> Some (2 / 3).
Proof.
  rewrite canonical_overlap_is_jaccard.
  rewrite (jaccard_counts _ _ 1 2) by (vm_compute; reflexivity).
  intros Heq. injection Heq as Heq. simpl in Heq. lra.
Qed.

End JaccardFacts.

(** ** Words, white space and lower case *)

Section StringFacts.

Import PyStr.

Lemma lower_char_idem (c : ascii) : lower_char (lower_char c) = lower_char c.
Proof. destruct c as [[] [] [] [] [] [] [] []]; reflexivity. Qed.

Lemma isspace_lower_char (c : ascii) : isspace (lower_char c) = isspace c.
Proof. destruct c as [[] [] [] [] [] [] [] []]; reflexivity. Qed.

Lemma lower_idem (s : string) : lower (lower s) = lower s.
Proof.
  induction s as [| c s IH]; simpl; [reflexivity |].
  now rewrite lower_char_idem, IH.
Qed.

Lemma lower_app (s t : string) :
  lower (String.append s t) = String.append (lower s) (lower t).
Proof. induction s as [| c s IH]; simpl; [reflexivity | now rewrite IH]. Qed.

Lemma lower_join_space (ws : list string) :
  lower (join " " ws) = join " " (List.map lower ws).
Proof.
  induction ws as [| w ws IH]; [reflexivity |].
  destruct ws as [| w' ws]; [reflexivity |].
  change (join " " (w :: w' :: ws))
    with (String.append w (String " "%char (join " " (w' :: ws)))).
  rewrite lower_app.
  change (lower (String " "%char (join " " (w' :: ws))))
    with (String " "%char (lower (join " " (w' :: ws)))).
  rewrite IH. reflexivity.
Qed.

Lemma starts_with_lower (s : string) :
  starts_with (fun c => negb (isspace c)) (lower s)
  = starts_with (fun c => negb (isspace c)) s.
Proof. destruct s; simpl; [reflexivity | now rewrite isspace_lower_char]. Qed.

(** Lowering a text lowers its words and moves no word boundary. *)
Lemma split_lower (s : string) : split (lower s) = List.map lower (split s).
Proof.
  unfold split. induction s as [| c s IH]; simpl; [reflexivity |].
  rewrite isspace_lower_char. destruct (negb (isspace c)); [| exact IH].
  rewrite IH, starts_with_lower.
  destruct (runs _ s) as [| w ws]; simpl; [reflexivity |].
  destruct (starts_with _ s); reflexivity.
Qed.

Lemma runs_head_starts (p : ascii -> bool) (s : string) (w : string) (ws : list string) :
  runs p s = w :: ws -> starts_with p s = true -> starts_with p w = true.
Proof.
  destruct s as [| c s]; simpl; [discriminate |].
  intros Hr Hp. rewrite Hp in Hr.
  destruct (runs p s) as [| w1 ws1]; [| destruct (starts_with p s)];
    injection Hr as <- _; simpl; exact Hp.
Qed.

Lemma runs_are_words (p : ascii -> bool) (s : string) :
  Forall (is_word p) (runs p s).
Proof.
  induction s as [| c s IH]; simpl; [constructor |].
  destruct (p c) eqn:Hc; [| exact IH].
  destruct (runs p s) as [| w ws].
  - repeat constructor; [discriminate | simpl; now rewrite Hc].
  - inversion IH as [| ? ? [Hw1 Hw2] Hws]; subst.
    destruct (starts_with p s).
    + constructor; [| exact Hws]. split; [discriminate | simpl; now rewrite Hc].
    + constructor; [| now constructor].
      split; [discriminate | simpl; now rewrite Hc].
Qed.

Lemma runs_cons (p : ascii -> bool) (c : ascii) (s : string) :
  runs p (String c s)
  = if p c then
      match runs p s with
      | w :: ws =>
          if starts_with p s then String c w :: ws
          else String c EmptyString :: w :: ws
      | [] => [String c EmptyString]
      end
    else runs p s.
Proof. reflexivity. Qed.

Lemma starts_with_app_word (p : ascii -> bool) (w s : string) :
  is_word p w -> starts_with p (String.append w s) = true.
Proof.
  intros [Hne Hall]. destruct w as [| c w]; [contradiction |].
  simpl in *. now apply andb_true_iff in Hall as [-> _].
Qed.

(** A word followed by something that does not continue it is the first
    run. *)
Lemma runs_app_word (p : ascii -> bool) (w s : string) :
  is_word p w -> starts_with p s = false ->
  runs p (String.append w s) = w :: runs p s.
Proof.
  intros [Hne Hall] Hs. induction w as [| c w IH]; [contradiction |].
  simpl in Hall. apply andb_true_iff in Hall as [Hc Hall].
  change (String.append (String c w) s) with (String c (String.append w s)).
  rewrite runs_cons, Hc. destruct w as [| c' w].
  - change (String.append EmptyString s) with s.
    rewrite Hs. destruct (runs p s); reflexivity.
  - rewrite IH by (discriminate || assumption).
    rewrite (starts_with_app_word p (String c' w) s); [reflexivity |].
    split; [discriminate | assumption].
Qed.

Lemma append_empty_r (s : string) : String.append s EmptyString = s.
Proof.
  induction s as [| c s IH]; [reflexivity |].
  change (String c (String.append s EmptyString) = String c s). now rewrite IH.
Qed.

(** Splitting what [join] built from words gives the words back. *)
Lemma split_join_words (ws : list string) :
  Forall (is_word (fun c => negb (isspace c))) ws ->
  split (join " " ws) = ws.
Proof.
  unfold split. induction 1 as [| w ws Hw Hws IH]; [reflexivity |].
  destruct ws as [| w' ws].
  - pose proof (runs_app_word _ w EmptyString Hw eq_refl) as E.
    rewrite append_empty_r in E. exact E.
  - change (join " " (w :: w' :: ws))
      with (String.append w (String " "%char (join " " (w' :: ws)))).
    rewrite runs_app_word by (assumption || reflexivity).
    rewrite runs_cons. change (negb (isspace " ")) with false. cbv iota.
    now rewrite IH.
Qed.

Lemma join_words_not_empty (p : ascii -> bool) (w : string) (ws : list string) :
  is_word p w -> join " " (w :: ws) <> EmptyString.
Proof.
  intros [Hne _]. destruct w as [| c w]; [contradiction |].
  destruct ws; simpl; discriminate.
Qed.

Lemma lstrip_blank (s : string) : split s = [] -> lstrip s = EmptyString.
Proof.
  unfold split. induction s as [| c s IH]; simpl; [reflexivity |].
  destruct (isspace c); simpl; [exact IH |].
  destruct (runs _ s); [| destruct (starts_with _ s)]; discriminate.
Qed.

(** A text with no word strips to the empty string. *)
Lemma strip_blank (s : string) : split s = [] -> strip s = EmptyString.
Proof. intros Hs. unfold strip. now rewrite lstrip_blank. Qed.

Lemma normalised_join_split_lower (s : string) :
  strip s <> EmptyString -> normalised (join " " (split (lower s))).
Proof.
  intros Hs.
  assert (Hwords : Forall (is_word (fun c => negb (isspace c))) (split (lower s)))
    by apply runs_are_words.
  assert (Hne : split (lower s) <> []).
  { rewrite split_lower. intros Hnil. apply Hs, strip_blank.
    now destruct (split s). }
  split; [| split].
  - destruct (split (lower s)) as [| w ws]; [contradiction |].
    inversion Hwords; subst. eapply join_words_not_empty; eassumption.
  - rewrite lower_join_space, split_lower, List.map_map.
    f_equal. apply List.map_ext. intros w. apply lower_idem.
  - now rewrite split_join_words.
Qed.

End StringFacts.

(** ** The parser never runs out of fuel *)

Section JsonFuelFacts.

Import Json.

Lemma skip_ws_length (s : string) : String.length (skip_ws s) <= String.length s.
Proof.
  induction s as [| c s IH]; simpl; [lia |].
  destruct (is_ws c); simpl; lia.
Qed.

Lemma drop_prefix_length (pre s rest : string) :
  drop_prefix pre s = Some rest ->
  String.length rest + String.length pre = String.length s.
Proof.
  revert s. induction pre as [| a pre IH]; intros [| b s]; simpl; try discriminate.
  - intros [= <-]. reflexivity.
  - intros [= <-]. simpl. lia.
  - destruct (Ascii.eqb a b); [| discriminate]. intros Hd%IH. lia.
Qed.

Lemma scanstring_length_aux (n : nat) (s t r : string) :
  String.length s <= n -> scanstring s = Some (t, r) ->
  String.length r < String.length s.
Proof.
  revert s t r. induction n as [| n IH]; intros s t r Hn Hs;
    destruct s as [| c s]; simpl in Hn; try discriminate; [lia |].
  simpl in Hs.
  repeat match type of Hs with
         | context [match scanstring ?x with _ => _ end] =>
             let E := fresh "E" in
             destruct (scanstring x) as [[? ?] |] eqn:E;
             [apply IH in E; [| simpl in *; lia] | try discriminate]
         | context [if ?b then _ else _] => destruct b
         | context [match ?x with _ => _ end] => destruct x
         end; try discriminate;
    injection Hs as <- <-; simpl in *; lia.
Qed.

Lemma scanstring_length (s t r : string) :
  scanstring s = Some (t, r) -> String.length r < String.length s.
Proof. now apply (scanstring_length_aux (String.length s)). Qed.

Lemma span_digits_length (s ds rest : string) :
  span_digits s = (ds, rest) -> String.length rest <= String.length s.
Proof.
  revert ds rest. induction s as [| c s IH]; simpl; intros ds rest.
  - intros [= <- <-]. simpl. lia.
  - destruct (is_digit c).
    + destruct (span_digits s) as [ds' rest'] eqn:E. intros [= <- <-].
      specialize (IH _ _ eq_refl). lia.
    + intros [= <- <-]. simpl. lia.
Qed.

Lemma span_int_length (s ip rest : string) :
  span_int s = Some (ip, rest) -> String.length rest < String.length s.
Proof.
  unfold span_int. destruct s as [| c s]; [discriminate |].
  destruct (Ascii.eqb c "0"); [intros [= <- <-]; simpl; lia |].
  destruct (is_digit c); [| discriminate].
  destruct (span_digits s) as [ds r] eqn:E. apply span_digits_length in E.
  intros [= <- <-]. simpl. lia.
Qed.

Lemma span_frac_length (s fp rest : string) :
  span_frac s = (fp, rest) -> String.length rest <= String.length s.
Proof.
  unfold span_frac. destruct s as [| c s]; [intros [= <- <-]; simpl; lia |].
  destruct (Ascii.eqb c "."); [| intros [= <- <-]; simpl; lia].
  destruct (span_digits s) as [ds r] eqn:E. apply span_digits_length in E.
  destruct ds; intros [= <- <-]; simpl; lia.
Qed.

Lemma span_exp_length (s ep rest : string) :
  span_exp s = (ep, rest) -> String.length rest <= String.length s.
Proof.
  unfold span_exp. destruct s as [| c s]; [intros [= <- <-]; simpl; lia |].
  destruct (_ || _); [| intros [= <- <-]; simpl; lia].
  destruct s as [| g s]; [intros [= <- <-]; simpl; lia |].
  destruct (_ || _).
  - destruct (span_digits s) as [ds r] eqn:E. apply span_digits_length in E.
    destruct ds; intros [= <- <-]; simpl; lia.
  - destruct (span_digits (String g s)) as [ds r] eqn:E.
    apply span_digits_length in E.
    destruct ds; intros [= <- <-]; simpl in *; lia.
Qed.

Lemma match_number_length (s : string) (v : value) (rest : string) :
  match_number s = Some (v, rest) -> String.length rest < String.length s.
Proof.
  unfold match_number.
  set (signed := match s with
                 | String c s' => if Ascii.eqb c "-" then (true, s') else (false, s)
                 | EmptyString => (false, s)
                 end).
  assert (Hsigned : String.length signed.2 <= String.length s).
  { subst signed. destruct s as [| c s]; simpl; [lia |].
    destruct (Ascii.eqb c "-"); simpl; lia. }
  destruct signed as [neg s1]. simpl in Hsigned.
  destruct (span_int s1) as [[ip s2] |] eqn:Ei; [| discriminate].
  apply span_int_length in Ei.
  destruct (span_frac s2) as [fp s3] eqn:Ef. apply span_frac_length in Ef.
  destruct (span_exp s3) as [ep s4] eqn:Ee. apply span_exp_length in Ee.
  destruct fp; destruct ep; intros [= <- <-]; lia.
Qed.

Lemma literal_length (word : string) (v x : value) (s rest : string) :
  literal word v s = Some (x, rest) ->
  String.length rest + String.length word = String.length s.
Proof.
  unfold literal. destruct (drop_prefix word s) as [r |] eqn:E; [| discriminate].
  intros [= <- <-]. now apply drop_prefix_length.
Qed.

Lemma skip_ws_cons_length (s : string) (c : ascii) (r : string) :
  skip_ws s = String c r -> String.length r < String.length s.
Proof. intros E. pose proof (skip_ws_length s) as Hl. rewrite E in Hl. simpl in Hl. lia. Qed.

Section Routines.

Variables (members members' : string -> option (list (string * value) * string)).
Variables (elements elements' : string -> option (list value * string)).
Variables (value_at value_at' : string -> option (value * string)).

Lemma scan_once_shortens :
  shortens members -> shortens elements -> shortens (scan_once members elements).
Proof.
  intros Hm He s v r. unfold scan_once.
  destruct s as [| c s]; [discriminate |].
  destruct (Ascii.eqb c "034").
  { destruct (scanstring s) as [[t rest] |] eqn:E; [| discriminate].
    apply scanstring_length in E. intros [= <- <-]. simpl. lia. }
  destruct (Ascii.eqb c "{").
  { destruct (skip_ws s) as [| c1 r1] eqn:E; [discriminate |].
    apply skip_ws_cons_length in E.
    destruct (Ascii.eqb c1 "}"); [intros [= <- <-]; simpl; lia |].
    destruct (Ascii.eqb c1 "034"); [| discriminate].
    destruct (members r1) as [[d rest] |] eqn:E1; [| discriminate].
    apply Hm in E1. intros [= <- <-]. simpl. lia. }
  destruct (Ascii.eqb c "[").
  { destruct (skip_ws s) as [| c1 r1] eqn:E; [discriminate |].
    apply skip_ws_cons_length in E.
    destruct (Ascii.eqb c1 "]"); [intros [= <- <-]; simpl; lia |].
    destruct (elements (String c1 r1)) as [[l rest] |] eqn:E1; [| discriminate].
    apply He in E1. intros [= <- <-]. simpl in *. lia. }
  repeat match goal with
         | |- context [literal ?w ?x ?y] =>
             let E := fresh "E" in
             destruct (literal w x y) as [[? ?] |] eqn:E;
             [apply literal_length in E; intros [= <- <-]; simpl in *; lia |]
         | |- context [match_number ?y] =>
             let E := fresh "E" in
             destruct (match_number y) as [[? ?] |] eqn:E;
             [apply match_number_length in E; intros [= <- <-]; simpl in *; lia |]
         end.
  discriminate.
Qed.

Lemma scan_once_ext (s : string) :
  (forall x, String.length x + 2 <= String.length s -> members x = members' x) ->
  (forall x, String.length x + 1 <= String.length s -> elements x = elements' x) ->
  scan_once members elements s = scan_once members' elements' s.
Proof.
  intros Hm He. unfold scan_once.
  destruct s as [| c s]; [reflexivity |].
  destruct (Ascii.eqb c "034"); [reflexivity |].
  destruct (Ascii.eqb c "{").
  { destruct (skip_ws s) as [| c1 r1] eqn:E; [reflexivity |].
    apply skip_ws_cons_length in E.
    rewrite Hm by (simpl; lia). reflexivity. }
  destruct (Ascii.eqb c "[").
  { destruct (skip_ws s) as [| c1 r1] eqn:E; [reflexivity |].
    apply skip_ws_cons_length in E.
    rewrite He by (simpl; lia). reflexivity. }
  reflexivity.
Qed.

Lemma JSONObject_shortens :
  shortens value_at -> shortens members -> shortens (JSONObject value_at members).
Proof.
  intros Hv Hm s d r. unfold JSONObject.
  destruct (scanstring s) as [[key r0] |] eqn:E0; [| discriminate].
  apply scanstring_length in E0.
  destruct (skip_ws r0) as [| c r1] eqn:E1; [discriminate |].
  apply skip_ws_cons_length in E1.
  destruct (Ascii.eqb c ":"); [| discriminate].
  pose proof (skip_ws_length r1) as Hl1.
  destruct (value_at (skip_ws r1)) as [[v r2] |] eqn:E2; [| discriminate].
  apply Hv in E2.
  destruct (skip_ws r2) as [| c2 r3] eqn:E3; [discriminate |].
  apply skip_ws_cons_length in E3.
  destruct (Ascii.eqb c2 "}"); [intros [= <- <-]; lia |].
  destruct (Ascii.eqb c2 ","); [| discriminate].
  destruct (skip_ws r3) as [| c3 r4] eqn:E4; [discriminate |].
  apply skip_ws_cons_length in E4.
  destruct (Ascii.eqb c3 "034"); [| discriminate].
  destruct (members r4) as [[d' rest] |] eqn:E5; [| discriminate].
  apply Hm in E5. intros [= <- <-]. lia.
Qed.

Lemma JSONObject_ext (s : string) :
  shortens value_at ->
  (forall x, String.length x + 2 <= String.length s -> value_at x = value_at' x) ->
  (forall x, String.length x + 5 <= String.length s -> members x = members' x) ->
  JSONObject value_at members s = JSONObject value_at' members' s.
Proof.
  intros Hshort Hv Hm. unfold JSONObject.
  destruct (scanstring s) as [[key r0] |] eqn:E0; [| reflexivity].
  apply scanstring_length in E0.
  destruct (skip_ws r0) as [| c r1] eqn:E1; [reflexivity |].
  apply skip_ws_cons_length in E1.
  destruct (Ascii.eqb c ":"); [| reflexivity].
  pose proof (skip_ws_length r1) as Hl1.
  rewrite <- Hv by lia.
  destruct (value_at (skip_ws r1)) as [[v r2] |] eqn:E2; [| reflexivity].
  apply Hshort in E2.
  destruct (skip_ws r2) as [| c2 r3] eqn:E3; [reflexivity |].
  apply skip_ws_cons_length in E3.
  destruct (Ascii.eqb c2 "}"); [reflexivity |].
  destruct (Ascii.eqb c2 ","); [| reflexivity].
  destruct (skip_ws r3) as [| c3 r4] eqn:E4; [reflexivity |].
  apply skip_ws_cons_length in E4.
  rewrite Hm by lia. reflexivity.
Qed.

Lemma JSONArray_shortens :
  shortens value_at -> shortens elements -> shortens (JSONArray value_at elements).
Proof.
  intros Hv He s l r. unfold JSONArray.
  destruct (value_at s) as [[v r0] |] eqn:E0; [| discriminate].
  apply Hv in E0.
  destruct (skip_ws r0) as [| c r1] eqn:E1; [discriminate |].
  apply skip_ws_cons_length in E1.
  destruct (Ascii.eqb c "]"); [intros [= <- <-]; lia |].
  destruct (Ascii.eqb c ","); [| discriminate].
  pose proof (skip_ws_length r1) as Hl1.
  destruct (elements (skip_ws r1)) as [[l' rest] |] eqn:E2; [| discriminate].
  apply He in E2. intros [= <- <-]. lia.
Qed.

Lemma JSONArray_ext (s : string) :
  shortens value_at ->
  (forall x, String.length x <= String.length s -> value_at x = value_at' x) ->
  (forall x, String.length x + 2 <= String.length s -> elements x = elements' x) ->
  JSONArray value_at elements s = JSONArray value_at' elements' s.
Proof.
  intros Hshort Hv He. unfold JSONArray.
  rewrite <- Hv by lia.
  destruct (value_at s) as [[v r0] |] eqn:E0; [| reflexivity].
  apply Hshort in E0.
  destruct (skip_ws r0) as [| c r1] eqn:E1; [reflexivity |].
  apply skip_ws_cons_length in E1.
  destruct (Ascii.eqb c "]"); [reflexivity |].
  destruct (Ascii.eqb c ","); [| reflexivity].
  pose proof (skip_ws_length r1) as Hl1.
  rewrite He by lia. reflexivity.
Qed.

End Routines.

(** Every routine consumes at least one character when it succeeds. *)
Lemma parse_shortens (fuel : nat) :
  shortens (parse_value fuel) /\ shortens (parse_members fuel)
  /\ shortens (parse_elements fuel).
Proof.
  induction fuel as [| f (Hv & Hm & He)].
  - repeat split; intros x a r; discriminate.
  - split; [| split]; simpl.
    + now apply scan_once_shortens.
    + now apply JSONObject_shortens.
    + now apply JSONArray_shortens.
Qed.

(** With two units of fuel for every character (and one or two to start)
    one more unit changes nothing. *)
Lemma parse_fuel_stable (fuel : nat) :
  (forall s, 2 * String.length s + 1 <= fuel ->
     parse_value (S fuel) s = parse_value fuel s)
  /\ (forall s, 2 * String.length s + 1 <= fuel ->
     parse_members (S fuel) s = parse_members fuel s)
  /\ (forall s, 2 * String.length s + 2 <= fuel ->
     parse_elements (S fuel) s = parse_elements fuel s).
Proof.
  induction fuel as [| f (IHv & IHm & IHe)].
  - repeat split; intros s Hs; lia.
  - destruct (parse_shortens (S f)) as (Hv & _ & _).
    split; [| split]; intros s Hs.
    + change (scan_once (parse_members (S f)) (parse_elements (S f)) s
              = scan_once (parse_members f) (parse_elements f) s).
      apply scan_once_ext; intros x Hx; [apply IHm | apply IHe]; lia.
    + change (JSONObject (parse_value (S f)) (parse_members (S f)) s
              = JSONObject (parse_value f) (parse_members f) s).
      apply JSONObject_ext; [exact Hv | |]; intros x Hx; [apply IHv | apply IHm]; lia.
    + change (JSONArray (parse_value (S f)) (parse_elements (S f)) s
              = JSONArray (parse_value f) (parse_elements f) s).
      apply JSONArray_ext; [exact Hv | |]; intros x Hx; [apply IHv | apply IHe]; lia.
Qed.

(** The fuel [json_loads] starts with is enough: any larger amount gives
    the same parse. *)
Lemma json_loads_fuel_enough (s : string) (extra : nat) :
  parse_value (2 * String.length s + 2 + extra) (skip_ws s)
  = parse_value (2 * String.length s + 2) (skip_ws s).
Proof.
  pose proof (skip_ws_length s) as Hl.
  induction extra as [| n IH]; [now rewrite Nat.add_0_r |].
  rewrite Nat.add_succ_r.
  destruct (parse_fuel_stable (2 * String.length s + 2 + n)) as (Hv & _ & _).
  rewrite Hv by lia. exact IH.
Qed.

End JsonFuelFacts.

(** ** Feature extraction *)

Section ExtractFeaturesFacts.

Import PyStr Json Metrics.
Context `{Builtins}.

Lemma kept_spec (x : value) :
  kept x = true <-> is_str_int_float x = true /\ strip (py_str x) <> EmptyString.
Proof.
  unfold kept. rewrite andb_true_iff, negb_true_iff, String.eqb_neq. tauto.
Qed.

(** What a list-valued ["features"] member yields. *)
Lemma elem_of_normalised_features (xs : list value) (y : string) :
  y ∈ (list_to_set (List.map norm (List.filter kept xs)) : gset string)
  <-> exists x, x ∈ xs /\ is_str_int_float x = true
                /\ strip (py_str x) <> EmptyString /\ y = norm x.
Proof.
  rewrite elem_of_list_to_set, list_elem_of_In, in_map_iff. split.
  - intros (x & <- & Hx). apply filter_In in Hx as [Hin Hk].
    apply kept_spec in Hk as [? ?]. exists x.
    rewrite list_elem_of_In. auto.
  - intros (x & Hin & Hs & Hb & ->). exists x. split; [reflexivity |].
    apply filter_In. rewrite <- list_elem_of_In. split; [exact Hin |].
    apply kept_spec. auto.
Qed.


End ExtractFeaturesFacts.

(** ** The influence model *)

(** Goals about [max] and [min] of reals: split on every comparison and
    leave the rest to linear arithmetic. *)
Ltac clamp_cases :=
  unfold Rmax, Rmin;
  repeat match goal with
         | |- context [Rle_dec ?a ?b] =>
             lazymatch b with
             | context [Rle_dec _ _] => fail
             | _ => destruct (Rle_dec a b)
             end
         end;
  lra.

Section InfluenceFacts.

Import Agents.
Local Open Scope R_scope.

Lemma clamp_range (lo hi x : R) : lo <= hi -> lo <= Rmax lo (Rmin hi x) <= hi.
Proof. intros Hle. clamp_cases. Qed.

Lemma clamp_mono (lo hi x y : R) :
  x <= y -> Rmax lo (Rmin hi x) <= Rmax lo (Rmin hi y).
Proof. intros Hxy. clamp_cases. Qed.

Lemma temperature_denominator (alpha mu : R) :
  0 <= alpha -> 1 <= 1 + alpha * Rmax 0 mu.
Proof.
  intros Ha. assert (0 <= Rmax 0 mu) by apply Rmax_l. nra.
Qed.

Lemma temperature_defined (mu T0 alpha : R) :
  0 <= alpha ->
  temperature_from_mu mu T0 alpha
  = Some (Rmax 0.1 (Rmin 1.5 (T0 / (1 + alpha * Rmax 0 mu)))).
Proof.
  intros Ha. unfold temperature_from_mu.
  pose proof (temperature_denominator alpha mu Ha).
  destruct (Req_dec_T _ 0); [lra | reflexivity].
Qed.

(** Before clamping: the quotient does not grow with [mu] when [T0] is not
    negative, and stays negative when [T0] is. *)
Lemma temperature_antitone (T0 alpha m1 m2 : R) :
  0 <= alpha -> 0 <= m1 <= m2 ->
  Rmax 0.1 (Rmin 1.5 (T0 / (1 + alpha * m2)))
  <= Rmax 0.1 (Rmin 1.5 (T0 / (1 + alpha * m1))).
Proof.
  intros Ha [H1 H12].
  assert (Hd1 : 1 <= 1 + alpha * m1) by nra.
  assert (Hd2 : 1 + alpha * m1 <= 1 + alpha * m2) by nra.
  destruct (Rle_dec 0 T0) as [Hpos | Hneg].
  - apply clamp_mono. unfold Rdiv.
    apply Rmult_le_compat_l; [exact Hpos |].
    apply Rinv_le_contravar; lra.
  - assert (Hn : forall d, 1 <= d -> T0 / d < 0).
    { intros d Hd. unfold Rdiv.
      assert (0 < / d) by (apply Rinv_0_lt_compat; lra). nra. }
    pose proof (Hn _ Hd1). pose proof (Hn (1 + alpha * m2) ltac:(lra)).
    clamp_cases.
Qed.




End InfluenceFacts.

(** ** The peer-trust tracker *)

Section TrackerFacts.

Import Agents.
Local Open Scope R_scope.

Lemma clamp_unit (s : R) : 0 <= Rmax 0 (Rmin 1 s) <= 1.
Proof. apply clamp_range. lra. Qed.

Lemma clamp_unit_id (s : R) : 0 <= s <= 1 -> Rmax 0 (Rmin 1 s) = s.
Proof. intros [? ?]. clamp_cases. Qed.

Lemma sum_scores_empty : sum_scores ∅ = 0.
Proof. unfold sum_scores. apply map_fold_empty. Qed.

Lemma sum_scores_insert (m : gmap string R) (p : string) (x : R) :
  m !! p = None -> sum_scores (<[p := x]> m) = sum_scores m + x.
Proof.
  intros Hp. unfold sum_scores.
  rewrite map_fold_insert_L; [reflexivity | | exact Hp].
  intros. lra.
Qed.

(** The sum of scores in [0,1] lies between 0 and their number. *)
Lemma sum_scores_bounds (m : gmap string R) :
  map_Forall (fun _ v => 0 <= v <= 1) m ->
  0 <= sum_scores m <= INR (size m).
Proof.
  unfold sum_scores.
  apply (map_fold_weak_ind
           (fun r m => map_Forall (fun _ v => 0 <= v <= 1) m -> 0 <= r <= INR (size m))).
  - intros _. rewrite map_size_empty. simpl. lra.
  - intros p x m' r Hp IH Hall.
    apply map_Forall_insert in Hall as [Hx Hm']; [| exact Hp].
    specialize (IH Hm'). rewrite map_size_insert_None by exact Hp.
    rewrite S_INR. lra.
Qed.

Lemma mu_unit_interval (a : agent) :
  map_Forall (fun _ v => 0 <= v <= 1) (peer_scores a) -> 0 <= mu a <= 1.
Proof.
  intros Hall. unfold mu. case_bool_decide as He; [lra |].
  pose proof (sum_scores_bounds _ Hall) as [Hlo Hhi].
  assert (Hn : 0 < INR (size (peer_scores a))).
  { apply lt_0_INR. apply map_size_non_empty_iff in He. lia. }
  split.
  - apply Rmult_le_reg_r with (r := INR (size (peer_scores a))); [exact Hn |].
    unfold Rdiv. rewrite Rmult_assoc, Rinv_l by lra. lra.
  - apply Rmult_le_reg_r with (r := INR (size (peer_scores a))); [exact Hn |].
    unfold Rdiv. rewrite Rmult_assoc, Rinv_l by lra. lra.
Qed.

Lemma receive_feedback_keeps_unit (a : agent) (p : string) (s beta : R) :
  0 <= prior a <= 1 -> 0 <= beta <= 1 ->
  map_Forall (fun _ v => 0 <= v <= 1) (peer_scores a) ->
  map_Forall (fun _ v => 0 <= v <= 1) (peer_scores (receive_feedback a p s beta)).
Proof.
  intros Hprior Hbeta Hall. simpl.
  apply map_Forall_insert_2; [| exact Hall].
  pose proof (clamp_unit s) as Hc.
  assert (Hold : 0 <= default (prior a) (peer_scores a !! p) <= 1).
  { destruct (peer_scores a !! p) as [v |] eqn:E; simpl; [| exact Hprior].
    exact (Hall p v E). }
  nra.
Qed.

(** C3, as the code has it.  [receive_feedback] clamps the score to [0,1]
    and stores [(1 - beta) * old + beta * clamp s] for the peer, where [old]
    is the peer's stored value or the prior; nothing else of the agent
    changes.  With [beta = 1] the stored value is the clamped score.  With
    [beta = 0] the stored value is [old]: an agent that already had a value
    for the peer is left as it was, and a peer without one is entered with
    the prior. *)
Theorem receive_feedback_smoothing (a : agent) (p : string) (s beta : R) :
  let old := default (prior a) (peer_scores a !! p) in
  let c := Rmax 0 (Rmin 1 s) in
  0 <= c <= 1
  /\ (0 <= s <= 1 -> c = s)
  /\ peer_scores (receive_feedback a p s beta)
     = <[p := (1 - beta) * old + beta * c]> (peer_scores a)
  /\ (forall q, q <> p ->
        peer_scores (receive_feedback a p s beta) !! q = peer_scores a !! q)
  /\ prior (receive_feedback a p s beta) = prior a
  /\ peer_scores (receive_feedback a p s 1) !! p = Some c
  /\ peer_scores (receive_feedback a p s 0) !! p = Some old
  /\ (is_Some (peer_scores a !! p) ->
        receive_feedback a p s 0 = a /\ mu (receive_feedback a p s 0) = mu a)
  /\ (peer_scores a !! p = None ->
        peer_scores (receive_feedback a p s 0) = <[p := prior a]> (peer_scores a)).
Proof.
  cbv zeta. split; [apply clamp_unit |]. split; [apply clamp_unit_id |].
  split; [reflexivity |].
  split; [intros q Hq; simpl; now rewrite lookup_insert_ne |].
  split; [reflexivity |].
  split; [simpl; rewrite lookup_insert_eq; f_equal; lra |].
  split; [simpl; rewrite lookup_insert_eq; f_equal; lra |].
  split.
  - intros [v Hv].
    assert (Hsame : receive_feedback a p s 0 = a).
    { unfold receive_feedback. rewrite Hv. simpl.
      replace ((1 - 0) * v + 0 * Rmax 0 (Rmin 1 s)) with v by lra.
      rewrite insert_id by exact Hv. now destruct a. }
    split; [exact Hsame | now rewrite Hsame].
  - intros Hnone. simpl. rewrite Hnone. simpl. f_equal. lra.
Qed.

(** C3, as stated: on a fresh agent, feedback with [beta = 0] enters the
    peer with the prior 0.5, and [mu] moves from 0 to 0.5. *)
Lemma receive_feedback_beta_zero_changes_fresh_agent :
  let a := new_agent "planner" "Role: Planner." 6 0.5 0.8 in
  peer_scores (receive_feedback a "critic" 0.9 0) <> peer_scores a
  /\ mu a = 0
  /\ mu (receive_feedback a "critic" 0.9 0) = 0.5.
Proof.
  cbv zeta. split; [| split].
  - simpl. apply insert_non_empty.
  - unfold mu. simpl. now rewrite bool_decide_eq_true_2.
  - unfold mu, receive_feedback, new_agent. cbn [peer_scores prior].
    rewrite lookup_empty. cbn [default].
    rewrite bool_decide_eq_false_2 by apply insert_non_empty.
    rewrite sum_scores_insert, sum_scores_empty by apply lookup_empty.
    rewrite map_size_insert_None, map_size_empty by apply lookup_empty.
    change (INR 1) with 1. lra.
Qed.

(** C9. From a state whose prior and stored scores lie in [0,1], every
    sequence of [receive_feedback] calls with rates in [0,1] (and any
    scores) leaves every stored score, and hence [mu], in [0,1]. *)
Theorem trust_scores_stay_in_unit_interval
    (a : agent) (calls : list (string * R * R)) :
  0 <= prior a <= 1 ->
  map_Forall (fun _ v => 0 <= v <= 1) (peer_scores a) ->
  Forall (fun c => 0 <= c.2 <= 1) calls ->
  map_Forall (fun _ v => 0 <= v <= 1) (peer_scores (feedback_calls a calls))
  /\ 0 <= mu (feedback_calls a calls) <= 1.
Proof.
  intros Hprior Hall Hcalls.
  assert (Hinv : map_Forall (fun _ v => 0 <= v <= 1)
                   (peer_scores (feedback_calls a calls))).
  { revert a Hprior Hall.
    induction Hcalls as [| [[p s] b] calls Hb _ IH]; intros a Hprior Hall.
    - exact Hall.
    - simpl. apply IH; [exact Hprior |].
      now apply receive_feedback_keeps_unit. }
  split; [exact Hinv | now apply mu_unit_interval].
Qed.

Lemma trust_scores_stay_in_unit_interval_witness :
  let a := new_agent "planner" "Role: Planner." 6 0.5 0.8 in
  let calls := [("critic"%string, 0.9, 0.6); ("researcher"%string, 1.8, 1)] in
  map_Forall (fun _ v => 0 <= v <= 1) (peer_scores (feedback_calls a calls))
  /\ 0 <= mu (feedback_calls a calls) <= 1.
Proof.
  cbv zeta. apply trust_scores_stay_in_unit_interval.
  - simpl. lra.
  - apply map_Forall_empty.
  - repeat constructor; simpl; lra.
Defined.

End TrackerFacts.

(** ** The call protocol of an agent *)

Section CallFacts.

Import PyStr Json Metrics Agents.
Local Open Scope R_scope.
Context `{Builtins} `{Service}.

Lemma bind_returned {A B : Type} (m : Svc A) (f : A -> Svc B)
    (log log' : list request) (x : A) :
  m log = (Returned x, log') -> (x ← m; f x) log = f x log'.
Proof. unfold mbind, svc_bind. now intros ->. Qed.

Lemma run_returns (a : agent) (temperature : R) (task : string)
    (log : list request) :
  run a temperature task log
  = (Returned (reply log (Request (name a) (system_message a) temperature true task)),
     log ++ [Request (name a) (system_message a) temperature true task]).
Proof. reflexivity. Qed.

Lemma missing_keys_nil (d : value) (require_keys : list string) :
  missing_keys d require_keys = []
  <-> Forall (fun key => has_key d key = true) require_keys.
Proof.
  unfold missing_keys. induction require_keys as [| key keys IH]; simpl.
  - split; [constructor | reflexivity].
  - destruct (has_key d key) eqn:E; simpl.
    + rewrite IH. split; [now constructor | now inversion 1].
    + split; [discriminate | inversion 1; congruence].
Qed.

(** No key is missing exactly when the response is an object with all of
    them. *)
Lemma missing_keys_spec (txt : string) (require_keys : list string) :
  require_keys <> [] ->
  (missing_keys (safe_json_loads txt) require_keys = []
   <-> has_required_keys require_keys txt).
Proof.
  intros Hne. rewrite missing_keys_nil. unfold has_required_keys, safe_json_loads.
  split.
  - intros Hall. destruct (json_loads txt) as [[| | | | | | d] |];
      try (destruct require_keys; [contradiction | now inversion Hall]).
    exists d. split; [reflexivity |].
    eapply Forall_impl; [exact Hall |]. simpl. unfold dict_has.
    intros key. destruct (dict_get key d); [eauto | discriminate].
  - intros (d & -> & Hall). eapply Forall_impl; [exact Hall |]. simpl.
    unfold dict_has. now intros key [v ->].
Qed.

Lemma prepare_returns (a : agent) (task : string) (influenced : bool)
    (base_temp : R) (log : list request) :
  (influenced = true -> 0 <= alpha a) ->
  exists task' temperature,
    prepare a task influenced base_temp log = (Returned (task', temperature), log)
    /\ (influenced = false -> task' = task /\ temperature = base_temp)
    /\ (influenced = true ->
        temperature_from_mu (mu a) 0.7 (alpha a) = Some temperature).
Proof.
  intros Ha. unfold prepare. destruct influenced.
  - rewrite temperature_defined by auto. simpl.
    eexists _, _. split; [reflexivity |]. split; [discriminate | reflexivity].
  - eexists _, _. split; [reflexivity |]. split; [auto | discriminate].
Qed.


End CallFacts.

Section CallRuns.

Import PyStr Json Metrics Agents Scenario.
Local Open Scope R_scope.


End CallRuns.

(** ** One experiment pass *)

Section OnePassFacts.

Import PyStr Json Metrics Agents RunGrid.
Local Open Scope R_scope.
Context `{Builtins} `{Service} `{Prompts}.

(** A call without required keys is one request; its reply is returned. *)
Lemma call_without_keys (a : agent) (task : string) (influenced : bool)
    (base_temp : R) (log : list request) :
  (influenced = true -> 0 <= Agents.alpha a) ->
  exists q, call a task influenced base_temp [] log
            = (Returned (reply log q), log ++ [q]).
Proof.
  intros Ha.
  destruct (prepare_returns a task influenced base_temp log Ha)
    as (task' & temperature & Hprep & _).
  exists (Request (name a) (system_message a) temperature true task').
  unfold call. rewrite (bind_returned _ _ _ _ _ Hprep).
  now rewrite (bind_returned _ _ _ _ _ (run_returns a temperature task' log)).
Qed.

Lemma feedback_keeps_alpha (adv : bool) (b : R) (a : agent) :
  Agents.alpha (feedback_planner adv b a) = Agents.alpha a
  /\ Agents.alpha (feedback_researcher adv b a) = Agents.alpha a
  /\ Agents.alpha (feedback_critic adv b a) = Agents.alpha a.
Proof. destruct adv; repeat split; reflexivity. Qed.

(** The six requests of a pass and where its record takes its texts and its
    revision depth from. *)
Lemma one_pass_trace (b k0 t0 a0 : R) (sd : Z) (adv : bool) (log : list request) :
  0 <= a0 ->
  exists (rec : pass_record) (q1 q2 q3 q4 q5 q6 : request),
    one_pass b k0 t0 a0 sd adv log
    = (Returned rec, log ++ [q1; q2; q3; q4; q5; q6])
    /\ planner_baseline rec = reply log q1
    /\ researcher_baseline rec = reply (log ++ [q1]) q2
    /\ planner_influence rec = reply (log ++ [q1; q2; q3]) q4
    /\ researcher_influence rec = reply (log ++ [q1; q2; q3; q4]) q5
    /\ RevisionDepth_between_rounds rec
       = size ((extract_features_from_json (planner_influence rec)
                ∪ extract_features_from_json (researcher_influence rec))
               ∖ (extract_features_from_json (planner_baseline rec)
                  ∪ extract_features_from_json (researcher_baseline rec))).
Proof.
  intros Ha. unfold one_pass.
  set (planner := new_agent "planner" _ k0 t0 a0).
  set (researcher := new_agent "researcher" _ k0 t0 a0).
  set (critic := new_agent "critic" _ k0 t0 a0).
  destruct (call_without_keys planner (P_planner_baseline (prompts sd))
              false 0.2 log) as [q1 E1]; [discriminate |].
  rewrite (bind_returned _ _ _ _ _ E1).
  destruct (call_without_keys researcher (P_researcher_baseline (prompts sd))
              false 0.2 (log ++ [q1])) as [q2 E2]; [discriminate |].
  rewrite (bind_returned _ _ _ _ _ E2).
  destruct (call_without_keys critic
              (critic_prompt (P_critic_baseline (prompts sd))
                 (reply log q1) (reply (log ++ [q1]) q2))
              false 0.2 ((log ++ [q1]) ++ [q2])) as [q3 E3]; [discriminate |].
  rewrite (bind_returned _ _ _ _ _ E3).
  destruct (feedback_keeps_alpha adv b planner) as (Hp & _ & _).
  destruct (feedback_keeps_alpha adv b researcher) as (_ & Hr & _).
  destruct (feedback_keeps_alpha adv b critic) as (_ & _ & Hc).
  match goal with |- context [call ?a ?t true ?bt [] ] =>
    destruct (call_without_keys a t true bt (((log ++ [q1]) ++ [q2]) ++ [q3]))
      as [q4 E4]; [intros _; rewrite Hp; exact Ha |];
    rewrite (bind_returned _ _ _ _ _ E4)
  end.
  match goal with |- context [call ?a ?t true ?bt [] ] =>
    destruct (call_without_keys a t true bt
                ((((log ++ [q1]) ++ [q2]) ++ [q3]) ++ [q4]))
      as [q5 E5]; [intros _; rewrite Hr; exact Ha |];
    rewrite (bind_returned _ _ _ _ _ E5)
  end.
  match goal with |- context [call ?a ?t true ?bt [] ] =>
    destruct (call_without_keys a t true bt
                (((((log ++ [q1]) ++ [q2]) ++ [q3]) ++ [q4]) ++ [q5]))
      as [q6 E6]; [intros _; rewrite Hc; exact Ha |];
    rewrite (bind_returned _ _ _ _ _ E6)
  end.
  eexists _, q1, q2, q3, q4, q5, q6. split.
  - unfold mret, svc_ret. f_equal. now rewrite <- !app_assoc.
  - simpl. rewrite <- !app_assoc. simpl. repeat split; reflexivity.
Qed.

Lemma bind_returned_inv {A B : Type} (m : Svc A) (f : A -> Svc B)
    (log log' : list request) (y : B) :
  (x ← m; f x) log = (Returned y, log') ->
  exists x log1, m log = (Returned x, log1) /\ f x log1 = (Returned y, log').
Proof.
  unfold mbind, svc_bind. destruct (m log) as [[x | e] log1]; [eauto | discriminate].
Qed.

(** Whatever the six replies are, the record a pass returns takes its
    revision depth from its own four plan and research texts. *)
Lemma one_pass_revision_depth (b k0 t0 a0 : R) (sd : Z) (adv : bool)
    (log log' : list request) (rec : pass_record) :
  one_pass b k0 t0 a0 sd adv log = (Returned rec, log') ->
  RevisionDepth_between_rounds rec
  = size ((extract_features_from_json (planner_influence rec)
           ∪ extract_features_from_json (researcher_influence rec))
          ∖ (extract_features_from_json (planner_baseline rec)
             ∪ extract_features_from_json (researcher_baseline rec))).
Proof.
  unfold one_pass. intros Hrun.
  do 6 (apply bind_returned_inv in Hrun as (? & ? & _ & Hrun)).
  unfold mret, svc_ret in Hrun. injection Hrun as <- _. reflexivity.
Qed.

End OnePassFacts.
Section SetFacts.

(** Counting only what is new never exceeds counting what differs, and the
    two agree exactly when nothing old is missing. *)
Lemma new_only_le_symmetric (R1 R2 : gset string) :
  (size (R2 ∖ R1) <= size ((R1 ∖ R2) ∪ (R2 ∖ R1)))%nat
  /\ (size (R2 ∖ R1) = size ((R1 ∖ R2) ∪ (R2 ∖ R1)) <-> R1 ⊆ R2).
Proof.
  assert (Hsub : R2 ∖ R1 ⊆ (R1 ∖ R2) ∪ (R2 ∖ R1)) by set_solver.
  split; [now apply subseteq_size |]. split.
  - intros Heq.
    assert (Hsame : R2 ∖ R1 = (R1 ∖ R2) ∪ (R2 ∖ R1)).
    { apply set_subseteq_size_eq; [exact Hsub | lia]. }
    intros x Hx. destruct (decide (x ∈ R2)) as [| Hn]; [assumption |].
    assert (Hin : x ∈ (R1 ∖ R2) ∪ (R2 ∖ R1)) by set_solver.
    rewrite <- Hsame in Hin. set_solver.
  - intros Hincl. f_equal. apply leibniz_equiv. set_solver.
Qed.

End SetFacts.

Section RevisionDepthFacts.

Import PyStr Json Metrics Agents RunGrid.
Local Open Scope R_scope.
Context `{Builtins} `{Service} `{Prompts}.

(** C2, as the code has it.  The revision depth of the record of a pass is
    the number of features of round 2 (planner or researcher) that are not
    features of round 1 (planner or researcher): features dropped between
    the rounds are not counted.  It is at most the size of the symmetric
    difference of the two rounds and equals it exactly when every feature of
    round 1 is kept.  A pass whose decay coefficient is not negative does
    return a record, after six requests. *)
Theorem revision_depth_counts_new_features
    (b k0 t0 a0 : R) (sd : Z) (adv : bool) (log : list request) :
  (forall (rec : pass_record) (log' : list request),
     one_pass b k0 t0 a0 sd adv log = (Returned rec, log') ->
     let R1 := extract_features_from_json (planner_baseline rec)
               ∪ extract_features_from_json (researcher_baseline rec) in
     let R2 := extract_features_from_json (planner_influence rec)
               ∪ extract_features_from_json (researcher_influence rec) in
     RevisionDepth_between_rounds rec = size (R2 ∖ R1)
     /\ (forall x, x ∈ R2 ∖ R1 <-> x ∈ R2 /\ x ∉ R1)
     /\ (RevisionDepth_between_rounds rec <= size ((R1 ∖ R2) ∪ (R2 ∖ R1)))%nat
     /\ (RevisionDepth_between_rounds rec = size ((R1 ∖ R2) ∪ (R2 ∖ R1))
         <-> R1 ⊆ R2))
  /\ (0 <= a0 ->
      exists (rec : pass_record) (log' : list request),
        one_pass b k0 t0 a0 sd adv log = (Returned rec, log')
        /\ length log' = (length log + 6)%nat).
Proof.
  split.
  - intros rec log' Hrun. cbv zeta.
    rewrite (one_pass_revision_depth _ _ _ _ _ _ _ _ _ Hrun).
    split; [reflexivity |].
    split; [intros x; apply elem_of_difference |].
    apply new_only_le_symmetric.
  - intros Ha.
    destruct (one_pass_trace b k0 t0 a0 sd adv log Ha)
      as (rec & q1 & q2 & q3 & q4 & q5 & q6 & Hrun & _).
    exists rec, (log ++ [q1; q2; q3; q4; q5; q6]).
    split; [exact Hrun | rewrite length_app; reflexivity].
Qed.

End RevisionDepthFacts.

Section RevisionDepthRuns.

Import PyStr Json Metrics Agents RunGrid Scenario.
Local Open Scope R_scope.

(** C2, as stated: in a pass whose round 1 yields {rate, iat} and whose
    round 2 yields {rate}, one feature is in exactly one of the two rounds,
    and the recorded revision depth is 0. *)
Lemma revision_depth_is_not_symmetric_difference :
  exists (rec : pass_record) (log' : list request),
    @one_pass plain_builtins shrinking_service empty_prompts 0.6 6 0.5 0.8 1 false []
    = (Returned rec, log')
    /\ let R1 := @extract_features_from_json plain_builtins (planner_baseline rec)
                 ∪ @extract_features_from_json plain_builtins (researcher_baseline rec) in
       let R2 := @extract_features_from_json plain_builtins (planner_influence rec)
                 ∪ @extract_features_from_json plain_builtins (researcher_influence rec) in
       R1 = {[ "rate"; "iat" ]}%string /\ R2 = {[ "rate"%string ]}
       /\ size ((R1 ∖ R2) ∪ (R2 ∖ R1)) = 1%nat
       /\ RevisionDepth_between_rounds rec = 0%nat
       /\ RevisionDepth_between_rounds rec <> size ((R1 ∖ R2) ∪ (R2 ∖ R1)).
Proof.
  destruct (@one_pass_trace plain_builtins shrinking_service empty_prompts
              0.6 6 0.5 0.8 1 false [] ltac:(lra))
    as (rec & q1 & q2 & q3 & q4 & q5 & q6 & Hrun & Hp1 & Hr1 & Hp2 & Hr2 & Hrevd).
  exists rec, ([] ++ [q1; q2; q3; q4; q5; q6]). split; [exact Hrun |].
  cbv zeta. rewrite Hrevd, Hp1, Hr1, Hp2, Hr2.
  change (reply [] q1) with (quoted "{'features':['rate','iat']}").
  change (reply ([] ++ [q1]) q2) with (quoted "{'features':['rate','iat']}").
  change (reply ([] ++ [q1; q2; q3]) q4) with (quoted "{'features':['rate']}").
  change (reply ([] ++ [q1; q2; q3; q4]) q5) with (quoted "{'features':['rate']}").
  split; [vm_compute; reflexivity |].
  split; [vm_compute; reflexivity |].
  split; [vm_compute; reflexivity |].
  split; [vm_compute; reflexivity |].
  vm_compute. discriminate.
Qed.

End RevisionDepthRuns.

(** ** The resumable sweep *)

Section SweepFacts.

Import PyStr Json Metrics Agents RunGrid RunGridParallel.
Local Open Scope R_scope.
Context `{Builtins} `{Service} `{Prompts} `{Random} `{Clock}.

Lemma run_one_started (p : params) (w : world) :
  started (run_one p w).2 = started w ++ [p].
Proof.
  unfold run_one. destruct p as [[[[[b k0] t] a] s] adv].
  destruct (one_pass b k0 t a s adv (requests w)) as [[out | e] log']; reflexivity.
Qed.

(** While the budget holds the loop starts a pass for every task it is
    given, in order. *)
Lemma run_loop_starts_all (cfg : config) (start : R) (todo : list params)
    (completed : nat) (w : world) :
  match TIME_BUDGET_S cfg with
  | None => True
  | Some budget => forall n, time_time n - start <= budget
  end ->
  (run_loop cfg start todo completed w).1 = (completed + length todo)%nat
  /\ started (run_loop cfg start todo completed w).2 = started w ++ todo.
Proof.
  intros Hbudget. revert completed w.
  induction todo as [| p rest IH]; intros completed w; simpl.
  - split; [lia | now rewrite app_nil_r].
  - destruct (TIME_BUDGET_S cfg) as [budget |].
    + destruct (Rgt_dec (time_time (ticks w) - start) budget) as [Hover |].
      { specialize (Hbudget (ticks w)). lra. }
      destruct (run_one p _) as [u w2] eqn:E.
      destruct (IH (S completed) w2) as [Hc Hs]. split; [rewrite Hc; lia |].
      rewrite Hs. change w2 with (u, w2).2. rewrite <- E, run_one_started.
      simpl. now rewrite <- app_assoc.
    + destruct (run_one p w) as [u w2] eqn:E.
      destruct (IH (S completed) w2) as [Hc Hs]. split; [rewrite Hc; lia |].
      rewrite Hs. change w2 with (u, w2).2. rewrite <- E, run_one_started.
      now rewrite <- app_assoc.
Qed.

Lemma elem_of_build_tasks (cfg : config) (p : params) :
  p ∈ build_tasks cfg <-> p ∈ grid_product cfg.
Proof.
  unfold build_tasks. destruct (SHUFFLE_TASKS cfg); [| reflexivity].
  now rewrite shuffle_permutation.
Qed.

Lemma elem_of_read_done_keys (cfg : config) (st : option csv_file) (p : params) :
  RESUME_ENABLED cfg = true ->
  (p ∈ read_done_keys cfg st
   <-> exists f d, st = Some f /\ d ∈ dict_reader f /\ row_key d = Some p).
Proof.
  intros Hres. unfold read_done_keys. rewrite Hres. simpl.
  destruct st as [f |].
  - rewrite list_elem_of_omap. split.
    + intros (d & Hd & Hk). eauto.
    + intros (f' & d & [= <-] & Hd & Hk). eauto.
  - split; [intros Hin; now apply not_elem_of_nil in Hin |].
    intros (f & d & [=] & _).
Qed.

(** [main] is the loop over the tasks left, between two readings of the
    clock. *)
Lemma main_unfold (cfg : config) (w : world) :
  main cfg w
  = let todo :=
      List.filter (fun p => bool_decide (p ∉ read_done_keys cfg (store w)))
                  (build_tasks cfg) in
    let r := run_loop cfg (time_time (ticks w)) todo 0
               (World (ensure_header (store w)) (S (ticks w)) (requests w)
                      (started w)) in
    (r.1, World (store r.2) (S (ticks r.2)) (requests r.2) (started r.2)).
Proof.
  unfold main, now. cbn [ticks store requests started]. cbv zeta.
  destruct (run_loop _ _ _ _ _) as [completed w2]. reflexivity.
Qed.


End SweepFacts.

Section SweepRuns.

Import PyStr Json Metrics Agents RunGrid RunGridParallel Scenario.
Local Open Scope R_scope.

Lemma parse_float_of_decimal (s : string) (neg : bool) (m e : Z) :
  parse_decimal s = Some (neg, m, e) ->
  parse_float s = Some (if neg then - (IZR m * pow10 e) else IZR m * pow10 e).
Proof. unfold parse_float. now intros ->. Qed.

Lemma row_key_of_fields (d : list (string * option string))
    (sb sk st sa ss sadv : string) (b k0 t a : R) (s adv : Z) :
  field "beta" d = Some sb -> parse_float sb = Some b ->
  field "k" d = Some sk -> parse_float sk = Some k0 ->
  field "tau" d = Some st -> parse_float st = Some t ->
  field "alpha" d = Some sa -> parse_float sa = Some a ->
  field "seed" d = Some ss -> parse_int ss = Some s ->
  field "adversarial" d = Some sadv -> parse_int sadv = Some adv ->
  row_key d = Some (b, k0, t, a, s, negb (Z.eqb adv 0)).
Proof.
  intros Hb Pb Hk Pk Ht Pt Ha Pa Hs Ps Hadv Padv. unfold row_key.
  rewrite Hb, Hk, Ht, Ha, Hs, Hadv. simpl.
  rewrite Pb, Pk, Pt, Pa, Ps, Padv. reflexivity.
Qed.

Lemma parse_float_examples :
  parse_float "0.2" = Some 0.2 /\ parse_float "3.0" = Some 3
  /\ parse_float "0.3" = Some 0.3 /\ parse_float "0.4" = Some 0.4.
Proof.
  rewrite (parse_float_of_decimal "0.2" false 2 (-1)) by (vm_compute; reflexivity).
  rewrite (parse_float_of_decimal "3.0" false 30 (-1)) by (vm_compute; reflexivity).
  rewrite (parse_float_of_decimal "0.3" false 3 (-1)) by (vm_compute; reflexivity).
  rewrite (parse_float_of_decimal "0.4" false 4 (-1)) by (vm_compute; reflexivity).
  repeat split; f_equal; simpl; lra.
Qed.

(** The store of the scenario holds the key of the first task and no
    other. *)
Lemma read_done_keys_store_with_T1 :
  read_done_keys two_task_config store_with_T1 = [T1].
Proof.
  destruct parse_float_examples as (P2 & P3 & P03 & P04).
  unfold read_done_keys, store_with_T1, dict_reader.
  cbn [RESUME_ENABLED two_task_config negb List.filter length Nat.eqb List.map].
  cbn [omap list_omap].
  rewrite (row_key_of_fields _ "0.2" "3.0" "0.3" "0.4" "1" "0" 0.2 3 0.3 0.4 1 0)
    by (assumption || (vm_compute; reflexivity)).
  reflexivity.
Qed.

Lemma todo_of_two_tasks :
  List.filter (fun p => bool_decide (p ∉ [T1])) [T1; T2] = [T2].
Proof.
  cbn [List.filter].
  rewrite (bool_decide_eq_false_2 (T1 ∉ [T1]))
    by (intros Hn; apply Hn, list_elem_of_singleton; reflexivity).
  rewrite (bool_decide_eq_true_2 (T2 ∉ [T1])); [reflexivity |].
  intros Hin%list_elem_of_singleton. unfold T1, T2 in Hin. congruence.
Qed.


End SweepRuns.

(** ** Further properties of the sources *)

Section DecisionFacts.

Import PyStr Json Metrics.

(** X1. The critic's decision is read from the ["decision"] member of a
    JSON object, trimmed and upper-cased: [approve] in any case is APPROVE;
    an object without the member and a text that is not JSON are undefined.
    The rounds to approval are 1 exactly for APPROVE and undefined
    otherwise, never 0. *)
Theorem critic_decision_examples :
  critic_decision_from_json (quoted "{'decision':'approve'}") = Some APPROVE
  /\ critic_decision_from_json (quoted "{'decision':' Revise '}") = Some REVISE
  /\ critic_decision_from_json "{}" = None
  /\ critic_decision_from_json "not json" = None
  /\ (forall s, rounds_to_approval_json s = Some 1%nat
                <-> critic_decision_from_json s = Some APPROVE)
  /\ (forall s, rounds_to_approval_json s <> Some 0%nat).
Proof.
  do 4 (split; [vm_compute; reflexivity |]).
  split; intros s; unfold rounds_to_approval_json;
    destruct (critic_decision_from_json s) as [[|] |]; split || idtac;
    congruence.
Qed.

End DecisionFacts.

Section TemperatureFacts.

Import Agents.
Local Open Scope R_scope.


End TemperatureFacts.

Section PlainCallFacts.

Import PyStr Json Metrics Agents.
Local Open Scope R_scope.
Context `{Builtins} `{Service}.


End PlainCallFacts.

Section PlainCallRuns.

Import PyStr Json Metrics Agents Scenario.
Local Open Scope R_scope.


End PlainCallRuns.

Section BudgetFacts.

Import PyStr Json Metrics Agents RunGrid RunGridParallel.
Local Open Scope R_scope.
Context `{Builtins} `{Service} `{Prompts} `{Random} `{Clock}.

Lemma run_loop_starts_prefix (cfg : config) (start : R) (todo : list params)
    (completed : nat) (w : world) :
  exists n, (n <= length todo)%nat
    /\ (run_loop cfg start todo completed w).1 = (completed + n)%nat
    /\ started (run_loop cfg start todo completed w).2 = started w ++ take n todo.
Proof.
  revert completed w. induction todo as [| p rest IH]; intros completed w.
  - exists 0%nat. simpl. split; [lia |]. split; [lia | now rewrite app_nil_r].
  - simpl.
    assert (Hgo : forall w1, started w1 = started w ->
      exists n, (n <= S (length rest))%nat
        /\ (let '(_, w2) := run_one p w1 in
            run_loop cfg start rest (S completed) w2).1 = (completed + n)%nat
        /\ started (let '(_, w2) := run_one p w1 in
                    run_loop cfg start rest (S completed) w2).2
           = started w ++ take n (p :: rest)).
    { intros w1 Hw1. destruct (run_one p w1) as [u w2] eqn:E.
      destruct (IH (S completed) w2) as (n & Hn & Hc & Hs).
      exists (S n). split; [lia |]. split; [rewrite Hc; lia |].
      rewrite Hs. change w2 with (u, w2).2. rewrite <- E, run_one_started, Hw1.
      simpl. now rewrite <- app_assoc. }
    destruct (TIME_BUDGET_S cfg) as [budget |].
    + cbn [now ticks store requests started].
      destruct (Rgt_dec (time_time (ticks w) - start) budget).
      * exists 0%nat. simpl. split; [lia |]. split; [lia | now rewrite app_nil_r].
      * apply Hgo. reflexivity.
    + apply Hgo. reflexivity.
Qed.


End BudgetFacts.

Section DegradedPassFacts.

Import PyStr Json Metrics Agents RunGrid.
Local Open Scope R_scope.
Context `{Builtins} `{Service} `{Prompts}.

(** X5. In the record of a pass the rounds to approval of each round are
    those read from the critic's text of that round; a critic text that is
    not JSON leaves them undefined, and the record is still produced. *)
Theorem pass_record_decisions_follow_critic_text
    (b k0 t0 a0 : R) (sd : Z) (adv : bool) (log log' : list request)
    (rec : pass_record) :
  one_pass b k0 t0 a0 sd adv log = (Returned rec, log') ->
  RoundsToApproval_baseline rec = rounds_to_approval_json (critic_baseline rec)
  /\ RoundsToApproval_influence rec = rounds_to_approval_json (critic_influence rec)
  /\ (json_loads (critic_baseline rec) = None -> RoundsToApproval_baseline rec = None)
  /\ (json_loads (critic_influence rec) = None -> RoundsToApproval_influence rec = None).
Proof.
  unfold one_pass. intros Hrun.
  do 6 (apply bind_returned_inv in Hrun as (? & ? & _ & Hrun)).
  unfold mret, svc_ret in Hrun. injection Hrun as <- _.
  cbn [RoundsToApproval_baseline RoundsToApproval_influence critic_baseline
       critic_influence].
  unfold rounds_to_approval_json, critic_decision_from_json, safe_json_loads.
  repeat split; try (intros ->; reflexivity).
Qed.

End DegradedPassFacts.

Section DegradedPassRuns.

Import PyStr Json Metrics Agents RunGrid Scenario.
Local Open Scope R_scope.

Lemma pass_record_decisions_follow_critic_text_witness :
  exists (rec : pass_record) (log' : list request),
    @one_pass plain_builtins shrinking_service empty_prompts 0.6 6 0.5 0.8 1 false []
    = (Returned rec, log')
    /\ RoundsToApproval_baseline rec = rounds_to_approval_json (critic_baseline rec)
    /\ RoundsToApproval_influence rec = rounds_to_approval_json (critic_influence rec)
    /\ (json_loads (critic_baseline rec) = None -> RoundsToApproval_baseline rec = None)
    /\ (json_loads (critic_influence rec) = None -> RoundsToApproval_influence rec = None).
Proof.
  destruct (@one_pass_trace plain_builtins shrinking_service empty_prompts
              0.6 6 0.5 0.8 1 false [] ltac:(lra))
    as (rec & q1 & q2 & q3 & q4 & q5 & q6 & Hrun & _).
  exists rec, ([] ++ [q1; q2; q3; q4; q5; q6]). split; [exact Hrun |].
  exact (@pass_record_decisions_follow_critic_text
           plain_builtins shrinking_service empty_prompts _ _ _ _ _ _ _ _ _ Hrun).
Defined.

End DegradedPassRuns.

(** ** Set similarity as a measure *)

Section JaccardAlgebra.

Import PyStr Json Metrics.
Local Open Scope R_scope.

Lemma inter_le_union_size (a b : gset string) :
  (size (a ∩ b) <= size (a ∪ b))%nat.
Proof. apply subseteq_size. set_solver. Qed.

Lemma jaccard_defined (a b : gset string) :
  ~ (a = ∅ /\ b = ∅) ->
  jaccard a b = Some (INR (size (a ∩ b)) / INR (size (a ∪ b)))
  /\ 0 < INR (size (a ∪ b)).
Proof.
  intros Hn. pose proof (union_size_pos a b Hn) as Hpos.
  destruct (size (a ∪ b)) as [| d] eqn:Hu; [contradiction |].
  split; [now apply jaccard_counts |]. apply lt_0_INR. lia.
Qed.

Lemma jaccard_comm (a b : gset string) : jaccard a b = jaccard b a.
Proof.
  unfold jaccard. rewrite (andb_comm (bool_decide (a = ∅))).
  now rewrite (union_comm_L a b), (intersection_comm_L a b).
Qed.

Lemma jaccard_score (a b : gset string) (j : R) :
  jaccard a b = Some j ->
  0 <= j <= 1 /\ (j = 1 <-> a = b) /\ (j = 0 <-> a ∩ b = ∅).
Proof.
  intros Hj.
  assert (Hn : ~ (a = ∅ /\ b = ∅)).
  { intros [-> ->]. unfold jaccard in Hj.
    rewrite !bool_decide_eq_true_2 in Hj by reflexivity. discriminate. }
  destruct (jaccard_defined a b Hn) as [Heq Hpos].
  rewrite Heq in Hj. injection Hj as <-.
  pose proof (inter_le_union_size a b) as Hle. apply le_INR in Hle.
  pose proof (pos_INR (size (a ∩ b))) as Hi.
  set (i := INR (size (a ∩ b))) in *. set (u := INR (size (a ∪ b))) in *.
  assert (Hdiv : i / u * u = i) by (unfold Rdiv; rewrite Rmult_assoc, Rinv_l; lra).
  split; [| split].
  - split.
    + apply Rmult_le_reg_r with (r := u); [exact Hpos |]. lra.
    + apply Rmult_le_reg_r with (r := u); [exact Hpos |]. lra.
  - split.
    + intros H1. assert (Hiu : i = u) by (rewrite <- Hdiv, H1; lra).
      subst i u. apply INR_eq in Hiu.
      assert (Hsame : a ∩ b = a ∪ b).
      { apply set_subseteq_size_eq; [set_solver | lia]. }
      apply leibniz_equiv. set_solver.
    + intros ->. subst i u.
      rewrite (intersection_idemp_L b), (union_idemp_L b) in *.
      unfold Rdiv. rewrite Rinv_r; lra.
  - split.
    + intros H0. assert (Hi0 : i = 0) by (rewrite <- Hdiv, H0; lra).
      subst i. change 0 with (INR 0) in Hi0. apply INR_eq in Hi0.
      apply leibniz_equiv. now apply size_empty_inv.
    + intros He. subst i. rewrite He, size_empty. simpl. lra.
Qed.

(** X6. [jaccard] does not depend on the order of its arguments; when it
    is defined the score lies in [0,1], it is 1 exactly for two equal sets
    and 0 exactly for two sets without a common element. *)
Theorem jaccard_symmetric_and_bounded (a b : gset string) :
  jaccard a b = jaccard b a
  /\ (forall j, jaccard a b = Some j ->
        0 <= j <= 1 /\ (j = 1 <-> a = b) /\ (j = 0 <-> a ∩ b = ∅)).
Proof. split; [apply jaccard_comm | intros j; apply jaccard_score]. Qed.

End JaccardAlgebra.

(** ** The vocabulary overlap *)

Section CanonicalOverlap.

Import PyStr Json Metrics.
Local Open Scope R_scope.

Lemma lower_upper (s : string) : lower (upper s) = lower s.
Proof.
  induction s as [| c s IH]; [reflexivity |].
  cbn [upper lower]. rewrite IH. f_equal.
  destruct c as [[] [] [] [] [] [] [] []]; vm_compute; reflexivity.
Qed.

Lemma to_tags_upper (t : string) : to_tags (upper t) = to_tags t.
Proof. unfold to_tags. now rewrite lower_upper. Qed.

Lemma to_tags_lower (t : string) : to_tags (lower t) = to_tags t.
Proof. unfold to_tags. now rewrite lower_idem. Qed.

Lemma to_tags_vocabulary (t : string) : to_tags t ⊆ CANON_TAGS.
Proof. intros tok Htok. now apply elem_of_to_tags in Htok. Qed.


End CanonicalOverlap.

(** ** The smoothing of trust scores over time *)

Section SmoothingFacts.

Import PyStr Json Metrics Agents.
Local Open Scope R_scope.

Lemma feedback_calls_cons (a : agent) (p : string) (s b : R)
    (calls : list (string * R * R)) :
  feedback_calls a ((p, s, b) :: calls)
  = feedback_calls (receive_feedback a p s b) calls.
Proof. reflexivity. Qed.

Lemma feedback_calls_snoc (a : agent) (p : string) (s b : R)
    (calls : list (string * R * R)) :
  feedback_calls a (calls ++ [(p, s, b)])
  = receive_feedback (feedback_calls a calls) p s b.
Proof. unfold feedback_calls. now rewrite fold_left_app. Qed.

Lemma feedback_calls_prior (a : agent) (calls : list (string * R * R)) :
  prior (feedback_calls a calls) = prior a.
Proof.
  revert a. induction calls as [| [[p s] b] calls IH]; intros a; [reflexivity |].
  rewrite feedback_calls_cons, IH. reflexivity.
Qed.

Lemma replicate_snoc {A : Type} (n : nat) (x : A) :
  replicate (S n) x = replicate n x ++ [x].
Proof. induction n as [| n IH]; [reflexivity |]. simpl in *. now rewrite <- IH. Qed.

Lemma repeated_feedback_value (a : agent) (p : string) (s b : R) (n : nat) :
  peer_scores (feedback_calls a (replicate (S n) (p, s, b))) !! p
  = Some (Rmax 0 (Rmin 1 s)
          + (1 - b) ^ S n
            * (default (prior a) (peer_scores a !! p) - Rmax 0 (Rmin 1 s))).
Proof.
  induction n as [| n IH].
  - change (replicate 1 (p, s, b)) with ([] ++ [(p, s, b)]).
    rewrite feedback_calls_snoc.
    cbn [feedback_calls fold_left receive_feedback peer_scores].
    rewrite lookup_insert_eq. f_equal. rewrite pow_1.
    generalize (default (prior a) (peer_scores a !! p)) (Rmax 0 (Rmin 1 s)).
    intros; unfold Datatypes.id; ring.
  - rewrite replicate_snoc, feedback_calls_snoc.
    cbn [receive_feedback peer_scores]. rewrite lookup_insert_eq, IH.
    cbn [default]. f_equal.
    change ((1 - b) ^ S (S n)) with ((1 - b) * (1 - b) ^ S n).
    generalize (default (prior a) (peer_scores a !! p)) (Rmax 0 (Rmin 1 s))
      ((1 - b) ^ S n).
    intros; unfold Datatypes.id; ring.
Qed.

Lemma repeated_feedback_others (a : agent) (p q : string) (s b : R) (n : nat) :
  q <> p ->
  peer_scores (feedback_calls a (replicate n (p, s, b))) !! q = peer_scores a !! q.
Proof.
  intros Hq. induction n as [| n IH]; [reflexivity |].
  rewrite replicate_snoc, feedback_calls_snoc.
  cbn [receive_feedback peer_scores]. now rewrite lookup_insert_ne.
Qed.

Lemma pow_unit_interval (x : R) (n : nat) : 0 <= x <= 1 -> 0 <= x ^ n <= 1.
Proof.
  intros Hx. induction n as [| n IH]; simpl; [lra |]. nra.
Qed.

(** X8. Feedback repeated [n+1] times from the same peer with the same
    score: the stored score is [c + (1 - beta)^(n+1) * (old - c)], where
    [c] is the score clamped to [0,1] and [old] the score stored before
    (the prior for a peer not heard from). With [0 <= beta <= 1] its
    distance to [c] never exceeds the initial one, with [beta = 1] it is
    [c] itself, and peers other than the sender keep their scores. *)
Theorem receive_feedback_repeated_geometric
    (a : agent) (p : string) (s b : R) (n : nat) :
  let c := Rmax 0 (Rmin 1 s) in
  let old := default (prior a) (peer_scores a !! p) in
  let a' := feedback_calls a (replicate (S n) (p, s, b)) in
  peer_scores a' !! p = Some (c + (1 - b) ^ S n * (old - c))
  /\ (0 <= b <= 1 -> Rabs ((1 - b) ^ S n * (old - c)) <= Rabs (old - c))
  /\ (b = 1 -> peer_scores a' !! p = Some c)
  /\ (forall q, q <> p -> peer_scores a' !! q = peer_scores a !! q).
Proof.
  cbv zeta. split; [apply repeated_feedback_value |].
  split; [| split].
  - intros Hb. rewrite Rabs_mult.
    assert (Hp : 0 <= (1 - b) ^ S n <= 1) by (apply pow_unit_interval; lra).
    rewrite (Rabs_right ((1 - b) ^ S n)) by lra.
    pose proof (Rabs_pos (default (prior a) (peer_scores a !! p)
                          - Rmax 0 (Rmin 1 s))).
    nra.
  - intros ->. rewrite repeated_feedback_value. f_equal.
    replace (1 - 1) with 0 by lra. rewrite pow_i by lia. lra.
  - intros q Hq. now apply repeated_feedback_others.
Qed.

Lemma receive_feedback_commute (a : agent) (p q : string) (s1 b1 s2 b2 : R) :
  p <> q ->
  receive_feedback (receive_feedback a p s1 b1) q s2 b2
  = receive_feedback (receive_feedback a q s2 b2) p s1 b1.
Proof.
  intros Hpq. unfold receive_feedback. cbn [name system_message k tau alpha prior peer_scores].
  rewrite !lookup_insert_ne by congruence.
  f_equal. apply insert_insert_ne. congruence.
Qed.

Lemma feedback_calls_permutation (calls calls' : list (string * R * R)) :
  Permutation calls calls' ->
  forall a, NoDup (List.map (fun c => c.1.1) calls) ->
  feedback_calls a calls = feedback_calls a calls'.
Proof.
  induction 1 as [| [[p s] b] l l' Hperm IH
                  | [[p s] b] [[q s'] b'] l
                  | l l' l'' H1 IH1 H2 IH2]; intros a Hnd.
  - reflexivity.
  - rewrite !feedback_calls_cons. apply IH.
    simpl in Hnd. now apply NoDup_cons in Hnd as [_ ?].
  - rewrite !feedback_calls_cons. f_equal.
    apply receive_feedback_commute.
    simpl in Hnd. apply NoDup_cons in Hnd as [Hnin _].
    intros ->. apply Hnin. now left.
  - rewrite IH1 by exact Hnd. apply IH2.
    assert (Hp : List.map (fun c : string * R * R => c.1.1) l
                 ≡ₚ List.map (fun c : string * R * R => c.1.1) l')
      by now apply Permutation_map.
    rewrite <- Hp. exact Hnd.
Qed.

(** X9. Feedback from different peers can be delivered in any order: when
    no peer occurs twice in a list of feedback calls, every permutation of
    the list leaves the agent in the same state, with the same [mu]. *)
Theorem feedback_order_between_peers_is_irrelevant
    (a : agent) (calls calls' : list (string * R * R)) :
  NoDup (List.map (fun c => c.1.1) calls) ->
  Permutation calls calls' ->
  feedback_calls a calls = feedback_calls a calls'
  /\ mu (feedback_calls a calls) = mu (feedback_calls a calls').
Proof.
  intros Hnd Hperm.
  assert (E : feedback_calls a calls = feedback_calls a calls')
    by now apply feedback_calls_permutation.
  split; [exact E | now rewrite E].
Qed.

Lemma feedback_order_between_peers_is_irrelevant_witness :
  let a := new_agent "planner" "Role: Planner." 6 0.5 0.8 in
  let c1 := ("critic"%string, 0.9, 0.6) in
  let c2 := ("researcher"%string, 0.8, 0.6) in
  feedback_calls a [c1; c2] = feedback_calls a [c2; c1]
  /\ mu (feedback_calls a [c1; c2]) = mu (feedback_calls a [c2; c1]).
Proof.
  cbv zeta. apply feedback_order_between_peers_is_irrelevant.
  - simpl. repeat constructor; set_solver.
  - apply perm_swap.
Defined.

End SmoothingFacts.

(** ** The scripted trust of a pass and the requests it sends *)

Section ScriptedTrust.

Import PyStr Json Metrics Agents RunGrid.
Local Open Scope R_scope.

(** The mean of two first scores, from two different peers. *)
Lemma mu_two_first_scores (a : agent) (p q : string) (s1 s2 b : R) :
  peer_scores a = ∅ -> p <> q ->
  mu (receive_feedback (receive_feedback a p s1 b) q s2 b)
  = prior a + b * ((Rmax 0 (Rmin 1 s1) + Rmax 0 (Rmin 1 s2)) / 2 - prior a).
Proof.
  intros He Hpq. unfold mu, receive_feedback.
  cbn [peer_scores prior]. rewrite He.
  rewrite lookup_insert_ne, !lookup_empty by congruence. cbn [default].
  rewrite bool_decide_eq_false_2 by apply insert_non_empty.
  rewrite sum_scores_insert
    by (rewrite lookup_insert_ne by congruence; apply lookup_empty).
  rewrite sum_scores_insert by apply lookup_empty.
  rewrite sum_scores_empty.
  rewrite map_size_insert_None
    by (rewrite lookup_insert_ne by congruence; apply lookup_empty).
  rewrite map_size_insert_None by apply lookup_empty.
  rewrite map_size_empty. change (INR 2) with (1 + 1).
  unfold Datatypes.id. field.
Qed.

Lemma scripted_mu (adv : bool) (b k0 t0 a0 : R) (role : string) :
  mu (feedback_planner adv b (new_agent "planner" role k0 t0 a0))
  = 0.5 + b * (if adv then -0.05 else 0.35)
  /\ mu (feedback_researcher adv b (new_agent "researcher" role k0 t0 a0))
     = 0.5 + b * (if adv then -0.025 else 0.275)
  /\ mu (feedback_critic adv b (new_agent "critic" role k0 t0 a0))
     = 0.5 + b * (if adv then -0.1 else 0.275).
Proof.
  unfold feedback_planner, feedback_researcher, feedback_critic.
  destruct adv; cbn [negb];
    rewrite !mu_two_first_scores by (reflexivity || discriminate);
    cbn [prior new_agent];
    rewrite !clamp_unit_id by lra; repeat split; lra.
Qed.

Section WithService.

Context `{Builtins} `{Service} `{Prompts}.

(** X10. The trust levels a pass records do not depend on what the agents
    answered, nor on [k], [tau], [alpha] or the seed: each is the rounding
    of [0.5 + beta * d] for a constant [d] fixed by the role and by the
    adversarial flag: 0.35, 0.275 and 0.275 for the planner, researcher
    and critic of a cooperative pass, -0.05, -0.025 and -0.1 for those of
    an adversarial one. *)
Theorem one_pass_trust_is_scripted
    (b k0 t0 a0 : R) (sd : Z) (adv : bool) (log log' : list request)
    (rec : pass_record) :
  one_pass b k0 t0 a0 sd adv log = (Returned rec, log') ->
  mu_planner rec = round_ndigits (0.5 + b * (if adv then -0.05 else 0.35)) 4
  /\ mu_researcher rec
     = round_ndigits (0.5 + b * (if adv then -0.025 else 0.275)) 4
  /\ mu_critic rec = round_ndigits (0.5 + b * (if adv then -0.1 else 0.275)) 4.
Proof.
  unfold one_pass. intros Hrun.
  do 6 (apply bind_returned_inv in Hrun as (? & ? & _ & Hrun)).
  unfold mret, svc_ret in Hrun. injection Hrun as <- _.
  cbn [mu_planner mu_researcher mu_critic].
  destruct (scripted_mu adv b k0 t0 a0 "Role: Planner. Short prioritized plan.")
    as (-> & _ & _).
  destruct (scripted_mu adv b k0 t0 a0
              "Role: Researcher. List concise streaming features and brief reasons.")
    as (_ & -> & _).
  destruct (scripted_mu adv b k0 t0 a0
              "Role: Critic. Point gaps/risks. Reply 'APPROVE' if sufficient.")
    as (_ & _ & ->).
  repeat split; reflexivity.
Qed.

End WithService.

End ScriptedTrust.

Section ScriptedTrustRuns.

Import PyStr Json Metrics Agents RunGrid Scenario.
Local Open Scope R_scope.

Lemma one_pass_trust_is_scripted_witness :
  exists (rec : pass_record) (log' : list request),
    @one_pass plain_builtins shrinking_service empty_prompts 0.3 3 0.4 0.8 1 true []
    = (Returned rec, log')
    /\ mu_planner rec = 0.5 + 0.3 * -0.05
    /\ mu_researcher rec = 0.5 + 0.3 * -0.025
    /\ mu_critic rec = 0.5 + 0.3 * -0.1.
Proof.
  destruct (@one_pass_trace plain_builtins shrinking_service empty_prompts
              0.3 3 0.4 0.8 1 true [] ltac:(lra))
    as (rec & q1 & q2 & q3 & q4 & q5 & q6 & Hrun & _).
  exists rec, ([] ++ [q1; q2; q3; q4; q5; q6]). split; [exact Hrun |].
  exact (@one_pass_trust_is_scripted
           plain_builtins shrinking_service empty_prompts _ _ _ _ _ _ _ _ _ Hrun).
Defined.

End ScriptedTrustRuns.

Section PassProtocol.

Import PyStr Json Metrics Agents RunGrid.
Local Open Scope R_scope.
Context `{Builtins} `{Service} `{Prompts}.

Lemma call_plain (a : agent) (task : string) (base_temp : R)
    (log : list request) :
  call a task false base_temp [] log
  = (Returned (reply log (Request (name a) (system_message a) base_temp true task)),
     log ++ [Request (name a) (system_message a) base_temp true task]).
Proof. reflexivity. Qed.

Lemma call_influenced (a : agent) (task : string) (base_temp T : R)
    (log : list request) :
  temperature_from_mu (mu a) 0.7 (Agents.alpha a) = Some T ->
  let task' :=
    String.append
      (influence_prefix (mu a) (lambda_from_mu (mu a) (Agents.k a) (Agents.tau a)) T)
      (String.append nl (String.append nl task)) in
  call a task true base_temp [] log
  = (Returned (reply log (Request (name a) (system_message a) T true task')),
     log ++ [Request (name a) (system_message a) T true task']).
Proof. intros HT. cbv zeta. unfold call, prepare. rewrite HT. reflexivity. Qed.

Lemma feedback_keeps_identity (adv : bool) (b : R) (a : agent) :
  (name (feedback_planner adv b a) = name a
   /\ Agents.k (feedback_planner adv b a) = Agents.k a
   /\ Agents.tau (feedback_planner adv b a) = Agents.tau a)
  /\ (name (feedback_researcher adv b a) = name a
      /\ Agents.k (feedback_researcher adv b a) = Agents.k a
      /\ Agents.tau (feedback_researcher adv b a) = Agents.tau a)
  /\ (name (feedback_critic adv b a) = name a
      /\ Agents.k (feedback_critic adv b a) = Agents.k a
      /\ Agents.tau (feedback_critic adv b a) = Agents.tau a).
Proof. destruct adv; repeat split; reflexivity. Qed.


End PassProtocol.

Section PassProtocolRuns.

Import PyStr Json Metrics Agents RunGrid Scenario.
Local Open Scope R_scope.


End PassProtocolRuns.

(** ** Passes with answers that cannot be used *)

Section UnusableAnswers.

Import PyStr Json Metrics Agents RunGrid.
Local Open Scope R_scope.
Context `{Builtins} `{Service} `{Prompts}.

Lemma jaccard_none (a b : gset string) :
  jaccard a b = None <-> a = ∅ /\ b = ∅.
Proof.
  unfold jaccard.
  destruct (bool_decide (a = ∅) && bool_decide (b = ∅)) eqn:E.
  - apply andb_true_iff in E as [Ha%bool_decide_eq_true_1 Hb%bool_decide_eq_true_1].
    tauto.
  - apply both_empty_false in E. split; [discriminate | tauto].
Qed.

Lemma round_opt_none (x : option R) (n : nat) : round_opt x n = None <-> x = None.
Proof. destruct x; simpl; split; congruence. Qed.

(** The metrics of a record are computed from its own six texts. *)
Lemma one_pass_metrics (b k0 t0 a0 : R) (sd : Z) (adv : bool)
    (log log' : list request) (rec : pass_record) :
  one_pass b k0 t0 a0 sd adv log = (Returned rec, log') ->
  let PF1 := extract_features_from_json (planner_baseline rec) in
  let RF1 := extract_features_from_json (researcher_baseline rec) in
  let PF2 := extract_features_from_json (planner_influence rec) in
  let RF2 := extract_features_from_json (researcher_influence rec) in
  AgreementRate_baseline rec = round_opt (jaccard PF1 RF1) 4
  /\ AgreementRate_influence rec = round_opt (jaccard PF2 RF2) 4
  /\ Planner_SelfAgreement rec = round_opt (jaccard PF1 PF2) 3
  /\ Researcher_SelfAgreement rec = round_opt (jaccard RF1 RF2) 3
  /\ PlannerResearcher_Canonical_baseline rec
     = round_opt (canonical_overlap (planner_baseline rec) (researcher_baseline rec)) 3
  /\ PlannerResearcher_Canonical_influence rec
     = round_opt (canonical_overlap (planner_influence rec) (researcher_influence rec)) 3
  /\ RoundsToApproval_baseline rec = rounds_to_approval_json (critic_baseline rec)
  /\ RoundsToApproval_influence rec = rounds_to_approval_json (critic_influence rec)
  /\ RevisionDepth_between_rounds rec = size ((PF2 ∪ RF2) ∖ (PF1 ∪ RF1)).
Proof.
  unfold one_pass. intros Hrun.
  do 6 (apply bind_returned_inv in Hrun as (? & ? & _ & Hrun)).
  unfold mret, svc_ret in Hrun. injection Hrun as <- _.
  cbv zeta. repeat split; reflexivity.
Qed.

(** Every text of a record is a reply of the service. *)
Lemma call_returns_a_reply (a : agent) (task : string) (influenced : bool)
    (base_temp : R) (log log' : list request) (txt : string) :
  call a task influenced base_temp [] log = (Returned txt, log') ->
  exists l q, txt = reply l q.
Proof.
  unfold call. intros Hrun.
  apply bind_returned_inv in Hrun as ([task' temperature] & log1 & _ & Hrun).
  apply bind_returned_inv in Hrun as (x & log2 & Hx & Hrun).
  unfold mret, svc_ret in Hrun. injection Hrun as <- _.
  rewrite run_returns in Hx. injection Hx as <- _. eauto.
Qed.

Lemma one_pass_texts (b k0 t0 a0 : R) (sd : Z) (adv : bool)
    (log log' : list request) (rec : pass_record) :
  one_pass b k0 t0 a0 sd adv log = (Returned rec, log') ->
  Forall (fun txt => exists l q, txt = reply l q)
    [planner_baseline rec; researcher_baseline rec; critic_baseline rec;
     planner_influence rec; researcher_influence rec; critic_influence rec].
Proof.
  unfold one_pass. intros Hrun.
  apply bind_returned_inv in Hrun as (p1 & ? & Ht1%call_returns_a_reply & Hrun).
  apply bind_returned_inv in Hrun as (r1 & ? & Ht2%call_returns_a_reply & Hrun).
  apply bind_returned_inv in Hrun as (c1 & ? & Ht3%call_returns_a_reply & Hrun).
  apply bind_returned_inv in Hrun as (p2 & ? & Ht4%call_returns_a_reply & Hrun).
  apply bind_returned_inv in Hrun as (r2 & ? & Ht5%call_returns_a_reply & Hrun).
  apply bind_returned_inv in Hrun as (c2 & ? & Ht6%call_returns_a_reply & Hrun).
  unfold mret, svc_ret in Hrun. injection Hrun as <- _.
  cbn [planner_baseline researcher_baseline critic_baseline
       planner_influence researcher_influence critic_influence].
  repeat constructor; assumption.
Qed.

(** X12. In the record of a pass each agreement rate is undefined exactly
    when both feature sets it compares are empty, the rounding keeps it
    so, and a defined baseline agreement of planner and researcher is the
    same whichever of the two is taken first. Texts that are not JSON
    give empty feature sets: a round whose plan and research are both not
    JSON has no agreement rate, and the record is produced all the same. *)
Theorem pass_record_rates_undefined_iff_no_features
    (b k0 t0 a0 : R) (sd : Z) (adv : bool) (log log' : list request)
    (rec : pass_record) :
  one_pass b k0 t0 a0 sd adv log = (Returned rec, log') ->
  let PF1 := extract_features_from_json (planner_baseline rec) in
  let RF1 := extract_features_from_json (researcher_baseline rec) in
  let PF2 := extract_features_from_json (planner_influence rec) in
  let RF2 := extract_features_from_json (researcher_influence rec) in
  (AgreementRate_baseline rec = None <-> PF1 = ∅ /\ RF1 = ∅)
  /\ (AgreementRate_influence rec = None <-> PF2 = ∅ /\ RF2 = ∅)
  /\ (Planner_SelfAgreement rec = None <-> PF1 = ∅ /\ PF2 = ∅)
  /\ (Researcher_SelfAgreement rec = None <-> RF1 = ∅ /\ RF2 = ∅)
  /\ AgreementRate_baseline rec = round_opt (jaccard RF1 PF1) 4
  /\ (json_loads (planner_baseline rec) = None ->
      json_loads (researcher_baseline rec) = None ->
      AgreementRate_baseline rec = None)
  /\ (json_loads (planner_influence rec) = None ->
      json_loads (researcher_influence rec) = None ->
      AgreementRate_influence rec = None).
Proof.
  intros Hrun. cbv zeta.
  destruct (one_pass_metrics _ _ _ _ _ _ _ _ _ Hrun)
    as (-> & -> & -> & -> & _).
  rewrite !round_opt_none, !jaccard_none.
  split; [reflexivity |]. split; [reflexivity |].
  split; [reflexivity |]. split; [reflexivity |].
  split; [now rewrite jaccard_comm |].
  unfold extract_features_from_json, safe_json_loads.
  split; intros -> ->; split; reflexivity.
Qed.


End UnusableAnswers.

Section UnusableAnswersRuns.

Import PyStr Json Metrics Agents RunGrid Scenario.
Local Open Scope R_scope.

Lemma pass_record_rates_undefined_iff_no_features_witness :
  exists (rec : pass_record) (log' : list request),
    @one_pass plain_builtins shrinking_service empty_prompts 0.3 3 0.4 0.8 1 false []
    = (Returned rec, log')
    /\ (AgreementRate_baseline rec = None
        <-> @extract_features_from_json plain_builtins (planner_baseline rec) = ∅
            /\ @extract_features_from_json plain_builtins (researcher_baseline rec) = ∅).
Proof.
  destruct (@one_pass_trace plain_builtins shrinking_service empty_prompts
              0.3 3 0.4 0.8 1 false [] ltac:(lra))
    as (rec & q1 & q2 & q3 & q4 & q5 & q6 & Hrun & _).
  exists rec, ([] ++ [q1; q2; q3; q4; q5; q6]). split; [exact Hrun |].
  exact (proj1 (@pass_record_rates_undefined_iff_no_features
                  plain_builtins shrinking_service empty_prompts
                  _ _ _ _ _ _ _ _ _ Hrun)).
Defined.


End UnusableAnswersRuns.

(** ** Integers written to the store and read back *)

Section IntegerRoundTrip.

Import PyStr Json Metrics Agents RunGrid RunGridParallel.

Lemma is_digit_not_space (c : ascii) : is_digit c = true -> isspace c = false.
Proof. destruct c as [[] [] [] [] [] [] [] []]; vm_compute; congruence. Qed.

Lemma is_digit_not_sign (c : ascii) :
  is_digit c = true ->
  Ascii.eqb c "-" = false /\ Ascii.eqb c "+" = false /\ Ascii.eqb c "_" = false.
Proof. destruct c as [[] [] [] [] [] [] [] []]; vm_compute; auto; congruence. Qed.

Lemma digitpart_digits (s : string) :
  all_chars is_digit s = true -> digitpart s = (s, EmptyString).
Proof.
  induction s as [| c s IH]; [reflexivity |].
  cbn [all_chars]. intros [Hc Hs]%andb_true_iff.
  cbn [digitpart]. rewrite Hc. destruct s as [| u t]; [reflexivity |].
  specialize (IH Hs).
  assert (Hu : Ascii.eqb u "_" = false).
  { cbn [all_chars] in Hs. apply andb_true_iff in Hs as [Hu _].
    now apply is_digit_not_sign in Hu. }
  rewrite Hu. cbn [andb]. now rewrite IH.
Qed.

Lemma rstrip_no_space (s : string) :
  all_chars (fun c => negb (isspace c)) s = true -> rstrip s = s.
Proof.
  induction s as [| c s IH]; [reflexivity |].
  cbn [all_chars]. intros [Hc Hs]%andb_true_iff. apply negb_true_iff in Hc.
  cbn [rstrip]. rewrite (IH Hs), Hc. now destruct s.
Qed.

Lemma lstrip_no_space (s : string) :
  all_chars (fun c => negb (isspace c)) s = true -> lstrip s = s.
Proof.
  destruct s as [| c s]; [reflexivity |].
  cbn [all_chars]. intros [Hc _]%andb_true_iff. apply negb_true_iff in Hc.
  cbn [lstrip]. now rewrite Hc.
Qed.

Lemma digits_no_space (s : string) :
  all_chars is_digit s = true -> all_chars (fun c => negb (isspace c)) s = true.
Proof.
  induction s as [| c s IH]; [reflexivity |].
  cbn [all_chars]. intros [Hc Hs]%andb_true_iff.
  now rewrite (is_digit_not_space c Hc), (IH Hs).
Qed.

Lemma digits_value_acc (s : string) (acc : Z) :
  digits_value acc s
  = (acc * 10 ^ Z.of_nat (String.length s) + digits_value 0 s)%Z.
Proof.
  revert acc. induction s as [| c s IH]; intros acc.
  - simpl. lia.
  - cbn [digits_value String.length].
    rewrite (IH (10 * acc + _)%Z), (IH (10 * 0 + _)%Z).
    rewrite Nat2Z.inj_succ, Z.pow_succ_r by lia. lia.
Qed.

Lemma pretty_N_char_digit (d : N) :
  (d < 10)%N ->
  is_digit (pretty_N_char d) = true
  /\ Z.of_N (N_of_ascii (pretty_N_char d) - 48) = Z.of_N d.
Proof.
  intros Hd.
  assert (Hcases : (d = 0 \/ d = 1 \/ d = 2 \/ d = 3 \/ d = 4 \/ d = 5
                    \/ d = 6 \/ d = 7 \/ d = 8 \/ d = 9)%N) by lia.
  repeat (destruct Hcases as [-> | Hcases]; [split; reflexivity |]).
  subst d. split; reflexivity.
Qed.

(** The digits of [x] put before a string of digits. *)
Lemma pretty_N_go_digits (x : N) (s : string) :
  all_chars is_digit s = true ->
  all_chars is_digit (pretty_N_go x s) = true
  /\ digits_value 0 (pretty_N_go x s)
     = (Z.of_N x * 10 ^ Z.of_nat (String.length s) + digits_value 0 s)%Z
  /\ (s <> EmptyString -> pretty_N_go x s <> EmptyString).
Proof.
  revert s. induction (N.lt_wf_0 x) as [x _ IH]. intros s Hs.
  assert (Hx : (x = 0 \/ 0 < x)%N) by lia. destruct Hx as [-> | Hx].
  - rewrite pretty_N_go_0. split; [exact Hs |]. split; [lia | auto].
  - rewrite pretty_N_go_step by exact Hx.
    assert (Hd : (x `mod` 10 < 10)%N) by (apply N.mod_lt; lia).
    destruct (pretty_N_char_digit _ Hd) as [Hdig Hval].
    destruct (IH (x `div` 10)%N ltac:(apply N.div_lt; lia)
                 (String (pretty_N_char (x `mod` 10)) s))
      as (Hall & Hv & Hne).
    { cbn [all_chars]. now rewrite Hdig, Hs. }
    split; [exact Hall |]. split; [| intros _; apply Hne; discriminate].
    rewrite Hv. cbn [digits_value String.length].
    rewrite (digits_value_acc s (10 * 0 + _)%Z), Hval.
    rewrite Nat2Z.inj_succ, Z.pow_succ_r by lia.
    pose proof (N.div_mod x 10 ltac:(lia)) as Hdm.
    assert (Hz : Z.of_N x = (10 * Z.of_N (x `div` 10) + Z.of_N (x `mod` 10))%Z)
      by lia.
    rewrite Hz. ring.
Qed.

Lemma pretty_positive_digits (p : positive) :
  let s := pretty (Npos p) in
  all_chars is_digit s = true /\ digits_value 0 s = Zpos p /\ s <> EmptyString.
Proof.
  cbv zeta. unfold pretty, pretty_N.
  rewrite decide_False by discriminate.
  assert (Hp : (0 < N.pos p)%N) by lia.
  rewrite pretty_N_go_step by exact Hp.
  assert (Hd : (N.pos p `mod` 10 < 10)%N) by (apply N.mod_lt; lia).
  destruct (pretty_N_char_digit _ Hd) as [Hdig Hval].
  destruct (pretty_N_go_digits (N.pos p `div` 10)
              (String (pretty_N_char (N.pos p `mod` 10)) EmptyString))
    as (Hall & Hv & Hne).
  { cbn [all_chars]. now rewrite Hdig. }
  split; [exact Hall |]. split; [| apply Hne; discriminate].
  rewrite Hv. cbn [digits_value String.length]. rewrite Hval.
  pose proof (N.div_mod (N.pos p) 10 ltac:(lia)) as Hdm. lia.
Qed.

Lemma parse_int_digits (neg : bool) (ds : string) :
  all_chars is_digit ds = true -> ds <> EmptyString ->
  parse_int (if neg then String "-" ds else ds)
  = Some (if neg then (- digits_value 0 ds)%Z else digits_value 0 ds).
Proof.
  intros Hds Hne. unfold parse_int, strip.
  pose proof (digits_no_space ds Hds) as Hns.
  assert (Hstrip : rstrip (lstrip (if neg then String "-" ds else ds))
                   = (if neg then String "-" ds else ds)).
  { destruct neg.
    - rewrite lstrip_no_space, rstrip_no_space; try reflexivity;
        cbn [all_chars]; now rewrite Hns.
    - now rewrite lstrip_no_space, rstrip_no_space. }
  rewrite Hstrip.
  assert (Hsign : take_sign (if neg then String "-" ds else ds) = (neg, ds)).
  { destruct neg; [reflexivity |].
    destruct ds as [| c ds]; [contradiction |].
    cbn [all_chars] in Hds. apply andb_true_iff in Hds as [Hc _].
    destruct (is_digit_not_sign c Hc) as (Hm & Hp & _).
    unfold take_sign. now rewrite Hm, Hp. }
  rewrite Hsign, (digitpart_digits ds Hds).
  destruct ds; [contradiction | reflexivity].
Qed.

Lemma parse_int_pretty (z : Z) : parse_int (pretty z) = Some z.
Proof.
  destruct z as [| p | p].
  - vm_compute. reflexivity.
  - destruct (pretty_positive_digits p) as (Hall & Hv & Hne).
    change (pretty (Z.pos p)) with (pretty (N.pos p)).
    rewrite (parse_int_digits false _ Hall Hne). now rewrite Hv.
  - destruct (pretty_positive_digits p) as (Hall & Hv & Hne).
    change (pretty (Z.neg p)) with (String "-" (pretty (N.pos p))).
    rewrite (parse_int_digits true _ Hall Hne). now rewrite Hv.
Qed.

End IntegerRoundTrip.

(** ** The task list of the sweep *)

Section GridFacts.

Import PyStr Json Metrics Agents RunGrid RunGridParallel.
Local Open Scope R_scope.

Lemma elem_of_grid_product (cfg : config) (b k0 t a : R) (s : Z) (adv : bool) :
  (b, k0, t, a, s, adv) ∈ grid_product cfg
  <-> b ∈ GRID_beta cfg /\ k0 ∈ GRID_k cfg /\ t ∈ GRID_tau cfg
      /\ a ∈ GRID_alpha cfg /\ s ∈ SEEDS cfg /\ adv ∈ ADVERSARIAL cfg.
Proof.
  unfold grid_product.
  repeat setoid_rewrite list_elem_of_bind.
  setoid_rewrite list_elem_of_singleton. split.
  - intros (b' & (k' & (t' & (a' & (s' & (adv' & E & ?) & ?) & ?) & ?) & ?) & ?).
    injection E as -> -> -> -> -> ->. tauto.
  - intros (? & ? & ? & ? & ? & ?).
    exists b. split; [| assumption]. exists k0. split; [| assumption].
    exists t. split; [| assumption]. exists a. split; [| assumption].
    exists s. split; [| assumption]. exists adv. split; [reflexivity | assumption].
Qed.

Lemma length_bind_const {A B : Type} (f : A -> list B) (l : list A) (n : nat) :
  (forall x, length (f x) = n) -> length (l ≫= f) = (length l * n)%nat.
Proof.
  intros Hf. induction l as [| x l IH]; [reflexivity |].
  rewrite bind_cons, length_app, Hf, IH. simpl. lia.
Qed.

Lemma length_grid_product (cfg : config) :
  length (grid_product cfg)
  = (length (GRID_beta cfg) * (length (GRID_k cfg) * (length (GRID_tau cfg)
     * (length (GRID_alpha cfg) * (length (SEEDS cfg)
        * length (ADVERSARIAL cfg))))))%nat.
Proof.
  unfold grid_product.
  apply length_bind_const. intros b.
  apply length_bind_const. intros k0.
  apply length_bind_const. intros t.
  apply length_bind_const. intros a.
  rewrite (length_bind_const _ _ (length (ADVERSARIAL cfg))); [reflexivity |].
  intros s. rewrite (length_bind_const _ _ 1%nat); [lia | reflexivity].
Qed.

Lemma NoDup_grid_product (cfg : config) :
  NoDup (GRID_beta cfg) -> NoDup (GRID_k cfg) -> NoDup (GRID_tau cfg) ->
  NoDup (GRID_alpha cfg) -> NoDup (SEEDS cfg) -> NoDup (ADVERSARIAL cfg) ->
  NoDup (grid_product cfg).
Proof.
  intros Hb Hk Ht Ha Hs Hadv. unfold grid_product.
  repeat (apply NoDup_bind;
          [ intros ? ? ? _ _ H1 H2;
            repeat setoid_rewrite list_elem_of_bind in H1;
            repeat setoid_rewrite list_elem_of_bind in H2;
            setoid_rewrite list_elem_of_singleton in H1;
            setoid_rewrite list_elem_of_singleton in H2;
            naive_solver
          | intros ? _
          | assumption ]).
  apply NoDup_singleton.
Qed.

(** X14. The task list is the Cartesian product of the six axes of the
    configuration, shuffled or not: a tuple is a task exactly when each
    component is on its axis, the number of tasks is the product of the
    lengths of the axes (720 for the values of the source file), and when
    no axis repeats a value no task occurs twice. *)
Theorem build_tasks_is_the_grid `{Random} (cfg : config) :
  build_tasks cfg ≡ₚ grid_product cfg
  /\ (forall b k0 t a s adv,
        (b, k0, t, a, s, adv) ∈ build_tasks cfg
        <-> b ∈ GRID_beta cfg /\ k0 ∈ GRID_k cfg /\ t ∈ GRID_tau cfg
            /\ a ∈ GRID_alpha cfg /\ s ∈ SEEDS cfg /\ adv ∈ ADVERSARIAL cfg)
  /\ length (build_tasks cfg)
     = (length (GRID_beta cfg) * (length (GRID_k cfg) * (length (GRID_tau cfg)
        * (length (GRID_alpha cfg) * (length (SEEDS cfg)
           * length (ADVERSARIAL cfg))))))%nat
  /\ (NoDup (GRID_beta cfg) -> NoDup (GRID_k cfg) -> NoDup (GRID_tau cfg) ->
      NoDup (GRID_alpha cfg) -> NoDup (SEEDS cfg) -> NoDup (ADVERSARIAL cfg) ->
      NoDup (build_tasks cfg))
  /\ length (build_tasks source_config) = 720%nat.
Proof.
  assert (Hperm : forall c, build_tasks c ≡ₚ grid_product c).
  { intros c. unfold build_tasks.
    destruct (SHUFFLE_TASKS c); [apply shuffle_permutation | reflexivity]. }
  split; [apply Hperm |]. split; [| split; [| split]].
  - intros b k0 t a s adv. rewrite (Hperm cfg). apply elem_of_grid_product.
  - rewrite (Hperm cfg). apply length_grid_product.
  - intros. rewrite (Hperm cfg). now apply NoDup_grid_product.
  - rewrite (Hperm source_config), length_grid_product. reflexivity.
Qed.

End GridFacts.

(** ** The store of the sweep *)

Section StoreFacts.

Import PyStr Json Metrics Agents RunGrid RunGridParallel.
Local Open Scope R_scope.
Context `{Builtins} `{Service} `{Prompts} `{Random} `{Clock}.

Lemma one_pass_params (b k0 t a : R) (s : Z) (adv : bool)
    (log log' : list request) (out : pass_record) :
  one_pass b k0 t a s adv log = (Returned out, log') ->
  RunGrid.beta out = b /\ RunGrid.k out = k0 /\ RunGrid.tau out = t
  /\ RunGrid.alpha out = a /\ RunGrid.seed out = s
  /\ RunGrid.adversarial out = (if adv then 1 else 0)%Z.
Proof.
  unfold one_pass. intros Hrun.
  do 6 (apply bind_returned_inv in Hrun as (? & ? & _ & Hrun)).
  unfold mret, svc_ret in Hrun. injection Hrun as <- _.
  repeat split; reflexivity.
Qed.

Lemma one_pass_returns (b k0 t a : R) (s : Z) (adv : bool) (log : list request) :
  0 <= a -> exists out log', one_pass b k0 t a s adv log = (Returned out, log').
Proof.
  intros Ha.
  destruct (one_pass_trace b k0 t a s adv log Ha)
    as (out & q1 & q2 & q3 & q4 & q5 & q6 & Hrun & _).
  eauto.
Qed.

(** What [run_one] does to the store. *)
Lemma run_one_store (p : params) (w : world) :
  let '(b, k0, t, a, s, adv) := p in
  match one_pass b k0 t a s adv (requests w) with
  | (Returned out, _) =>
      store (run_one p w).2 = Some (default [] (store w) ++ [short_row out])
  | (Raised _, _) => store (run_one p w).2 = store w
  end.
Proof.
  destruct p as [[[[[b k0] t] a] s] adv]. unfold run_one.
  destruct (one_pass b k0 t a s adv (requests w)) as [[out | e] log']; reflexivity.
Qed.

Lemma run_loop_appends (cfg : config) (start : R) (todo : list params)
    (completed : nat) (w : world) (f : csv_file) :
  store w = Some f ->
  exists rows,
    store (run_loop cfg start todo completed w).2 = Some (f ++ rows)
    /\ Forall (fun r => length r = length FIELDNAMES) rows
    /\ (completed + length rows <= (run_loop cfg start todo completed w).1)%nat
    /\ (Forall (fun p : params => 0 <= p.1.1.2) todo ->
        (completed + length rows)%nat = (run_loop cfg start todo completed w).1).
Proof.
  revert completed w f. induction todo as [| p rest IH]; intros completed w f Hf.
  - exists []. simpl. rewrite app_nil_r. repeat split; auto; lia.
  - assert (Hgo : forall w1, store w1 = Some f -> requests w1 = requests w ->
      exists rows,
        store (let '(_, w2) := run_one p w1 in
               run_loop cfg start rest (S completed) w2).2 = Some (f ++ rows)
        /\ Forall (fun r => length r = length FIELDNAMES) rows
        /\ (completed + length rows
            <= (let '(_, w2) := run_one p w1 in
                run_loop cfg start rest (S completed) w2).1)%nat
        /\ (Forall (fun p : params => 0 <= p.1.1.2) (p :: rest) ->
            (completed + length rows)%nat
            = (let '(_, w2) := run_one p w1 in
               run_loop cfg start rest (S completed) w2).1)).
    { intros w1 Hw1 _. pose proof (run_one_store p w1) as Hst.
      destruct p as [[[[[b k0] t] a] s] adv].
      destruct (one_pass b k0 t a s adv (requests w1)) as [[out | e] log'] eqn:E.
      - destruct (run_one (b, k0, t, a, s, adv) w1) as [u w2]. simpl in Hst.
        rewrite Hw1 in Hst. cbn [default] in Hst.
        destruct (IH (S completed) w2 _ Hst) as (rows & Hs & Hall & Hle & Heq).
        exists (short_row out :: rows). rewrite <- app_assoc in Hs.
        split; [exact Hs |]. split; [constructor; [reflexivity | exact Hall] |].
        cbn [length]. split; [lia |].
        intros Hpos. apply Forall_cons in Hpos as [_ Hpos].
        specialize (Heq Hpos). lia.
      - destruct (run_one (b, k0, t, a, s, adv) w1) as [u w2]. simpl in Hst.
        rewrite Hw1 in Hst.
        destruct (IH (S completed) w2 _ Hst) as (rows & Hs & Hall & Hle & Heq).
        exists rows. split; [exact Hs |]. split; [exact Hall |].
        split; [lia |].
        intros Hpos. apply Forall_cons in Hpos as [Ha _]. simpl in Ha.
        destruct (one_pass_returns b k0 t a s adv (requests w1) Ha)
          as (out & log2 & E2).
        congruence. }
    simpl. destruct (TIME_BUDGET_S cfg) as [budget |].
    + cbn [now ticks store requests started].
      destruct (Rgt_dec (time_time (ticks w) - start) budget).
      * exists []. simpl. rewrite app_nil_r, Hf.
        split; [reflexivity |]. split; [constructor |]. split; [lia |].
        intros _. lia.
      * apply Hgo; reflexivity || exact Hf.
    + apply Hgo; reflexivity || exact Hf.
Qed.

Lemma ensure_header_cases (st : option csv_file) :
  (st = None \/ st = Some []) /\ ensure_header st = Some [FIELDNAMES]
  \/ (exists r f, st = Some (r :: f)) /\ ensure_header st = st.
Proof.
  destruct st as [[| r f] |]; simpl; eauto 6.
Qed.


End StoreFacts.

(** ** Rows written by the sweep and read back by the next one *)

Section ResumeRoundTrip.

Import PyStr Json Metrics Agents RunGrid RunGridParallel.
Local Open Scope R_scope.
Context `{Builtins} `{Service} `{Prompts} `{Random} `{Clock}.

(** The six key columns of a row laid out by the schema. *)
Lemma schema_fields (f1 f2 f3 f4 f5 f6 f7 f8 f9 f10 f11 f12 f13 f14 f15 f16
    f17 f18 : string) :
  let d := row_dict FIELDNAMES
             [f1; f2; f3; f4; f5; f6; f7; f8; f9; f10; f11; f12; f13; f14; f15;
              f16; f17; f18] in
  field "beta" d = Some f1 /\ field "k" d = Some f2 /\ field "tau" d = Some f3
  /\ field "alpha" d = Some f4 /\ field "seed" d = Some f5
  /\ field "adversarial" d = Some f6.
Proof. cbv zeta. repeat split; reflexivity. Qed.

Lemma row_key_short_row (out : pass_record) (adv : bool) :
  parse_float (str_float (RunGrid.beta out)) = Some (RunGrid.beta out) ->
  parse_float (str_float (RunGrid.k out)) = Some (RunGrid.k out) ->
  parse_float (str_float (RunGrid.tau out)) = Some (RunGrid.tau out) ->
  parse_float (str_float (RunGrid.alpha out)) = Some (RunGrid.alpha out) ->
  RunGrid.adversarial out = (if adv then 1 else 0)%Z ->
  row_key (row_dict FIELDNAMES (short_row out))
  = Some (RunGrid.beta out, RunGrid.k out, RunGrid.tau out, RunGrid.alpha out,
          RunGrid.seed out, adv).
Proof.
  intros Pb Pk Pt Pa Hadv. unfold short_row.
  match goal with
  | |- context [row_dict FIELDNAMES
                  [?f1; ?f2; ?f3; ?f4; ?f5; ?f6; ?f7; ?f8; ?f9; ?f10; ?f11;
                   ?f12; ?f13; ?f14; ?f15; ?f16; ?f17; ?f18]] =>
      destruct (schema_fields f1 f2 f3 f4 f5 f6 f7 f8 f9 f10 f11 f12 f13 f14
                  f15 f16 f17 f18) as (Fb & Fk & Ft & Fa & Fs & Fadv)
  end.
  rewrite (row_key_of_fields _ _ _ _ _ _ _ _ _ _ _ _ _
             Fb Pb Fk Pk Ft Pt Fa Pa Fs (parse_int_pretty _)
             Fadv (parse_int_pretty _)).
  rewrite Hadv. now destruct adv.
Qed.

Lemma read_done_keys_snoc (cfg : config) (rows : csv_file) (row : csv_row)
    (p : params) :
  RESUME_ENABLED cfg = true -> row <> [] ->
  row_key (row_dict FIELDNAMES row) = Some p ->
  read_done_keys cfg (Some (FIELDNAMES :: rows ++ [row]))
  = read_done_keys cfg (Some (FIELDNAMES :: rows)) ++ [p].
Proof.
  intros Hres Hrow Hkey. unfold read_done_keys. rewrite Hres. cbn [negb].
  unfold dict_reader. rewrite List.filter_app, List.map_app, omap_app.
  f_equal. cbn [List.filter].
  destruct row as [| x row]; [contradiction |].
  cbn [length Nat.eqb negb List.map omap list_omap]. now rewrite Hkey.
Qed.

Lemma run_loop_records (cfg : config) (start : R) (todo : list params)
    (completed : nat) (w : world) (rows : csv_file) :
  RESUME_ENABLED cfg = true ->
  store w = Some (FIELDNAMES :: rows) ->
  Forall (fun p : params =>
            parse_float (str_float p.1.1.1.1.1) = Some p.1.1.1.1.1
            /\ parse_float (str_float p.1.1.1.1.2) = Some p.1.1.1.1.2
            /\ parse_float (str_float p.1.1.1.2) = Some p.1.1.1.2
            /\ parse_float (str_float p.1.1.2) = Some p.1.1.2
            /\ 0 <= p.1.1.2) todo ->
  exists ran rows',
    started (run_loop cfg start todo completed w).2 = started w ++ ran
    /\ store (run_loop cfg start todo completed w).2 = Some (FIELDNAMES :: rows')
    /\ read_done_keys cfg (Some (FIELDNAMES :: rows'))
       = read_done_keys cfg (Some (FIELDNAMES :: rows)) ++ ran.
Proof.
  intros Hres. revert completed w rows.
  induction todo as [| p rest IH]; intros completed w rows Hst Hall.
  - exists [], rows. simpl. now rewrite !app_nil_r.
  - apply Forall_cons in Hall as [Hp Hall].
    assert (Hgo : forall w1, store w1 = store w -> started w1 = started w ->
      exists ran rows',
        started (let '(_, w2) := run_one p w1 in
                 run_loop cfg start rest (S completed) w2).2 = started w ++ ran
        /\ store (let '(_, w2) := run_one p w1 in
                  run_loop cfg start rest (S completed) w2).2
           = Some (FIELDNAMES :: rows')
        /\ read_done_keys cfg (Some (FIELDNAMES :: rows'))
           = read_done_keys cfg (Some (FIELDNAMES :: rows)) ++ ran).
    { intros w1 Hw1 Hs1. pose proof (run_one_store p w1) as Hstore.
      pose proof (run_one_started p w1) as Hstarted.
      destruct p as [[[[[b k0] t] a] s] adv].
      cbn [fst snd] in Hp. destruct Hp as (Pb & Pk & Pt & Pa & Ha).
      destruct (one_pass_returns b k0 t a s adv (requests w1) Ha)
        as (out & log' & E).
      rewrite E in Hstore.
      destruct (one_pass_params _ _ _ _ _ _ _ _ _ E)
        as (Eb & Ek & Et & Ea & Es & Eadv).
      destruct (run_one (b, k0, t, a, s, adv) w1) as [u w2].
      cbn [snd] in Hstore, Hstarted.
      rewrite Hw1, Hst in Hstore. cbn [default] in Hstore.
      destruct (IH (S completed) w2 (rows ++ [short_row out]) Hstore Hall)
        as (ran & rows' & Hs & Hf & Hk).
      exists ((b, k0, t, a, s, adv) :: ran), rows'.
      split; [rewrite Hs, Hstarted, Hs1, <- app_assoc; reflexivity |].
      split; [exact Hf |].
      rewrite Hk.
      rewrite (read_done_keys_snoc cfg rows (short_row out) (b, k0, t, a, s, adv)
                 Hres ltac:(discriminate)).
      - now rewrite <- app_assoc.
      - rewrite (row_key_short_row out adv); rewrite ?Eb, ?Ek, ?Et, ?Ea, ?Es;
          auto. }
    simpl. destruct (TIME_BUDGET_S cfg) as [budget |].
    + cbn [now ticks store requests started].
      destruct (Rgt_dec (time_time (ticks w) - start) budget).
      * exists [], rows. simpl. now rewrite !app_nil_r.
      * apply Hgo; reflexivity.
    + apply Hgo; reflexivity.
Qed.


End ResumeRoundTrip.

Section ResumeRoundTripRuns.

Import PyStr Json Metrics Agents RunGrid RunGridParallel Scenario RoundTripScenario.
Local Open Scope R_scope.

Lemma parse_float_half : parse_float "0.5" = Some 0.5.
Proof.
  rewrite (parse_float_of_decimal "0.5" false 5 (-1)) by (vm_compute; reflexivity).
  f_equal. simpl. lra.
Qed.


End ResumeRoundTripRuns.

(** ** The shape of the mixing curve *)

Section MixingCurve.

Import Agents.
Local Open Scope R_scope.

Lemma logistic_lt (x y : R) : x < y -> 1 / (1 + exp (- x)) < 1 / (1 + exp (- y)).
Proof.
  intros Hxy.
  assert (He : exp (- y) < exp (- x)) by (apply exp_increasing; lra).
  pose proof (exp_pos (- y)) as Hy.
  unfold Rdiv. rewrite !Rmult_1_l.
  apply Rinv_0_lt_contravar; lra.
Qed.

Lemma logistic_mirror (x : R) : 1 / (1 + exp (- x)) + 1 / (1 + exp x) = 1.
Proof.
  rewrite exp_Ropp. pose proof (exp_pos x) as Hx.
  field. split; lra.
Qed.


End MixingCurve.

(** ** The sequential sweep *)

Section SequentialSweep.

Import PyStr Json Metrics Agents RunGrid RunGridParallel RunGridSweep.
Local Open Scope R_scope.
Context `{Builtins} `{Service} `{Prompts}.

(** The task a record was computed for. *)
Local Notation "'key_of' out" :=
  (RunGrid.beta out, RunGrid.k out, RunGrid.tau out, RunGrid.alpha out,
   RunGrid.seed out, negb (Z.eqb (RunGrid.adversarial out) 0))
  (at level 10, out at level 9).

(** What holds of a loop when it holds of its body: the rows are those of
    the tasks in order and every row comes with six requests. *)
Lemma for_each_rows {A : Type} (xs : list A) (body : A -> Svc (list pass_record))
    (f : A -> list params) (log log' : list request) (rows : list pass_record) :
  (forall x l r l', x ∈ xs -> body x l = (Returned r, l') ->
     List.map (fun out => key_of out) r = f x
     /\ length l' = (length l + 6 * length r)%nat) ->
  for_each xs body log = (Returned rows, log') ->
  List.map (fun out => key_of out) rows = xs ≫= f
  /\ length log' = (length log + 6 * length rows)%nat.
Proof.
  revert log log' rows. induction xs as [| x xs IH]; intros log log' rows Hbody Hrun.
  - injection Hrun as <- <-. split; [reflexivity | simpl; lia].
  - cbn [for_each] in Hrun.
    apply bind_returned_inv in Hrun as (r & l1 & Hx & Hrun).
    apply bind_returned_inv in Hrun as (rest & l2 & Hrest & Hrun).
    injection Hrun as <- <-.
    destruct (Hbody x log r l1 ltac:(left) Hx) as [Hk Hl].
    destruct (IH l1 l2 rest) as [Hk' Hl']; [| exact Hrest |].
    { intros y l r' l' Hy. apply Hbody. now right. }
    split.
    + rewrite List.map_app, Hk, Hk'. reflexivity.
    + rewrite length_app. lia.
Qed.

Lemma for_each_returns {A : Type} (xs : list A) (body : A -> Svc (list pass_record))
    (log : list request) :
  (forall x l, x ∈ xs -> exists r l', body x l = (Returned r, l')) ->
  exists rows log', for_each xs body log = (Returned rows, log').
Proof.
  revert log. induction xs as [| x xs IH]; intros log Hbody.
  - eexists _, _. reflexivity.
  - destruct (Hbody x log ltac:(left)) as (r & l1 & Hx).
    destruct (IH l1) as (rest & l2 & Hrest).
    { intros y l Hy. apply Hbody. now right. }
    exists (r ++ rest), l2. cbn [for_each].
    rewrite (bind_returned _ _ _ _ _ Hx), (bind_returned _ _ _ _ _ Hrest).
    reflexivity.
Qed.

Lemma one_pass_six_requests (b k0 t a : R) (s : Z) (adv : bool)
    (log log' : list request) (out : pass_record) :
  one_pass b k0 t a s adv log = (Returned out, log') ->
  length log' = (length log + 6)%nat.
Proof.
  unfold one_pass. intros Hrun.
  assert (Hcall : forall ag task infl bt l l' txt,
            call ag task infl bt [] l = (Returned txt, l') ->
            length l' = S (length l)).
  { intros ag task infl bt l l' txt Hc. unfold call in Hc.
    apply bind_returned_inv in Hc as ([task' temperature] & l1 & Hp & Hc).
    apply bind_returned_inv in Hc as (x & l2 & Hx & Hc).
    injection Hc as _ <-. rewrite run_returns in Hx. injection Hx as _ <-.
    unfold prepare in Hp. destruct infl.
    - apply bind_returned_inv in Hp as (T & l3 & HT & Hp).
      injection Hp as _ _ <-. unfold or_raise in HT.
      destruct (temperature_from_mu _ _ _); [| discriminate].
      injection HT as _ <-. rewrite length_app. simpl. lia.
    - injection Hp as _ _ <-. rewrite length_app. simpl. lia. }
  do 6 (apply bind_returned_inv in Hrun as (? & ? & ?%Hcall & Hrun)).
  injection Hrun as _ <-. lia.
Qed.

Lemma collect_rows (g : grid) (log log' : list request) (rows : list pass_record) :
  collect g log = (Returned rows, log') ->
  List.map (fun out => key_of out) rows
  = (adv ← [false; true]; b ← GRID_beta g; k0 ← GRID_k g; t ← GRID_tau g;
     a ← GRID_alpha g; s ← SEEDS g; [(b, k0, t, a, s, adv)])
  /\ length log' = (length log + 6 * length rows)%nat.
Proof.
  unfold collect.
  apply for_each_rows. intros adv l1 r1 l1' _.
  apply for_each_rows. intros b l2 r2 l2' _.
  apply for_each_rows. intros k0 l3 r3 l3' _.
  apply for_each_rows. intros t l4 r4 l4' _.
  apply for_each_rows. intros a l5 r5 l5' _.
  apply for_each_rows. intros s l6 r6 l6' _ Hrun.
  apply bind_returned_inv in Hrun as (out & l7 & Hpass & Hrun).
  injection Hrun as <- <-. cbn [List.map length].
  destruct (one_pass_params _ _ _ _ _ _ _ _ _ Hpass)
    as (-> & -> & -> & -> & -> & ->).
  rewrite (one_pass_six_requests _ _ _ _ _ _ _ _ _ Hpass).
  split; [now destruct adv | lia].
Qed.

Lemma collect_returns (g : grid) (log : list request) :
  Forall (fun a => 0 <= a) (GRID_alpha g) ->
  exists rows log', collect g log = (Returned rows, log').
Proof.
  intros Hpos. unfold collect.
  apply for_each_returns. intros adv l1 _.
  apply for_each_returns. intros b l2 _.
  apply for_each_returns. intros k0 l3 _.
  apply for_each_returns. intros t l4 _.
  apply for_each_returns. intros a l5 Ha.
  apply for_each_returns. intros s l6 _.
  rewrite Forall_forall in Hpos.
  destruct (one_pass_returns b k0 t a s adv l6 (Hpos a Ha)) as (out & l7 & Hpass).
  exists [out], l7. now rewrite (bind_returned _ _ _ _ _ Hpass).
Qed.


End SequentialSweep.

(** ** The debug helper *)

Section ShortFacts.

Import PyStr RunGridSweep.

Lemma string_length_append (s t : string) :
  String.length (String.append s t) = (String.length s + String.length t)%nat.
Proof.
  induction s as [| c s IH]; [reflexivity |].
  change (String.append (String c s) t) with (String c (String.append s t)).
  cbn [String.length]. now rewrite IH.
Qed.

Lemma length_substring_0 (n : nat) (s : string) :
  (n <= String.length s)%nat -> String.length (substring 0 n s) = n.
Proof.
  revert s. induction n as [| n IH]; intros s Hn.
  - destruct s; reflexivity.
  - destruct s as [| c s]; [simpl in Hn; lia |].
    cbn [substring String.length]. rewrite IH; [reflexivity |].
    simpl in Hn. lia.
Qed.

Lemma substring_0_append (n : nat) (s t : string) :
  (n <= String.length s)%nat ->
  substring 0 n (String.append (substring 0 n s) t) = substring 0 n s.
Proof.
  revert s. induction n as [| n IH]; intros s Hn.
  - destruct s; simpl; now destruct t.
  - destruct s as [| c s]; [simpl in Hn; lia |].
    cbn [substring].
    change (String.append (String c (substring 0 n s)) t)
      with (String c (String.append (substring 0 n s) t)).
    cbn [substring]. rewrite IH; [reflexivity |]. simpl in Hn. lia.
Qed.

(** X19. [_short] leaves a text of at most [n] characters as it is and
    cuts a longer one to its first [n] characters followed by the
    15-character mark, so its result is never longer than [n + 15]; it
    keeps the first [n] characters in either case, and applying it twice
    is applying it once. *)
Theorem short_keeps_the_first_characters (s : string) (n : nat) :
  ((String.length s <= n)%nat -> _short s n = s)
  /\ ((n < String.length s)%nat ->
      _short s n = String.append (substring 0 n s) " ...[truncated]"
      /\ String.length (_short s n) = (n + 15)%nat)
  /\ (String.length (_short s n) <= n + 15)%nat
  /\ substring 0 n (_short s n) = substring 0 n s
  /\ _short (_short s n) n = _short s n.
Proof.
  assert (Hshort : (String.length s <= n)%nat -> _short s n = s).
  { intros Hn. unfold _short. apply Nat.leb_le in Hn. now rewrite Hn. }
  assert (Hlong : (n < String.length s)%nat ->
            _short s n = String.append (substring 0 n s) " ...[truncated]"
            /\ String.length (_short s n) = (n + 15)%nat).
  { intros Hn. unfold _short.
    assert (Hb : (String.length s <=? n)%nat = false) by (apply Nat.leb_gt; lia).
    rewrite Hb. split; [reflexivity |].
    rewrite string_length_append, length_substring_0 by lia. reflexivity. }
  split; [exact Hshort |]. split; [exact Hlong |].
  destruct (Nat.le_gt_cases (String.length s) n) as [Hn | Hn].
  - rewrite (Hshort Hn). split; [lia |]. split; [reflexivity |].
    now rewrite (Hshort Hn).
  - destruct (Hlong Hn) as [Heq Hlen]. split; [lia |]. split.
    + rewrite Heq. apply substring_0_append. lia.
    + unfold _short at 1.
      assert (Hb : (String.length (_short s n) <=? n)%nat = false)
        by (apply Nat.leb_gt; lia).
      rewrite Hb, Heq. now rewrite substring_0_append by lia.
Qed.

End ShortFacts.

(** ** The legacy approval detector *)

Section LegacyApproval.

Import PyStr Json Metrics MetricsLegacy.

Lemma drop_prefix_spec (w s rest : string) :
  drop_prefix w s = Some rest <-> s = String.append w rest.
Proof.
  revert s. induction w as [| a w IH]; intros s.
  - change (String.append EmptyString rest) with rest.
    destruct s; cbn [drop_prefix]; split; congruence.
  - destruct s as [| b s]; cbn [drop_prefix].
    + split; discriminate.
    + change (String.append (String a w) rest)
        with (String a (String.append w rest)).
      destruct (Ascii.eqb_spec a b) as [-> | Hne].
      * rewrite IH. split; congruence.
      * split; [discriminate | congruence].
Qed.

Lemma search_APPROVE_spec (before : bool) (t : string) :
  search_APPROVE before t = true
  <-> exists pre post,
        t = String.append pre (String.append "APPROVE" post)
        /\ word_before before pre = false
        /\ starts_with is_word_char post = false.
Proof.
  split.
  - revert before. induction t as [| c t IH]; intros before; [discriminate |].
    cbn [search_APPROVE]. intros [Hhere | Hlater]%orb_true_iff.
    + apply andb_true_iff in Hhere as [Hb Hm].
      destruct (drop_prefix "APPROVE" (String c t)) as [rest |] eqn:E;
        [| discriminate].
      apply drop_prefix_spec in E. exists EmptyString, rest.
      split; [exact E |]. split.
      * now apply negb_true_iff in Hb.
      * now apply negb_true_iff in Hm.
    + destruct (IH _ Hlater) as (pre & post & -> & Hw & Hp).
      exists (String c pre), post. split; [reflexivity |]. split; assumption.
  - intros (pre & post & -> & Hw & Hp). revert before Hw.
    induction pre as [| c pre IH]; intros before Hw.
    + cbn [word_before] in Hw. subst before.
      change (String.append EmptyString (String.append "APPROVE" post))
        with (String "A" (String.append "PPROVE" post)).
      cbn [search_APPROVE negb andb].
      assert (E : drop_prefix "APPROVE" (String "A" (String.append "PPROVE" post))
                  = Some post) by (apply drop_prefix_spec; reflexivity).
      rewrite E, Hp. reflexivity.
    + change (String.append (String c pre) (String.append "APPROVE" post))
        with (String c (String.append pre (String.append "APPROVE" post))).
      cbn [search_APPROVE]. rewrite (IH _ Hw). apply orb_true_r.
Qed.

Lemma upper_lower (s : string) : upper (lower s) = upper s.
Proof.
  induction s as [| c s IH]; [reflexivity |].
  cbn [upper lower]. rewrite IH. f_equal.
  destruct c as [[] [] [] [] [] [] [] []]; vm_compute; reflexivity.
Qed.

(** X20. The legacy detector, on ASCII text: [rounds_to_approval] is 1
    exactly when the upper-cased text holds the word APPROVE with no
    letter, digit or underscore right before it and none right after it,
    and undefined otherwise, never 0; the case of the text does not
    matter. So [approve.] counts, [approved] and [disapprove] do not, and
    a critic that writes [REVISE, cannot approve] is read as approving. *)
Theorem rounds_to_approval_finds_the_word (critic_text : string) :
  (rounds_to_approval critic_text = Some 1%nat
   <-> exists pre post,
         upper critic_text = String.append pre (String.append "APPROVE" post)
         /\ word_before false pre = false
         /\ starts_with is_word_char post = false)
  /\ (rounds_to_approval critic_text = Some 1%nat
      \/ rounds_to_approval critic_text = None)
  /\ rounds_to_approval (lower critic_text) = rounds_to_approval critic_text
  /\ rounds_to_approval "approve." = Some 1%nat
  /\ rounds_to_approval "approved" = None
  /\ rounds_to_approval "disapprove" = None
  /\ rounds_to_approval "REVISE, cannot approve" = Some 1%nat.
Proof.
  split; [| split; [| split]].
  - rewrite <- search_APPROVE_spec. unfold rounds_to_approval.
    destruct (search_APPROVE false (upper critic_text)); split;
      congruence.
  - unfold rounds_to_approval.
    destruct (search_APPROVE false (upper critic_text)); auto.
  - unfold rounds_to_approval. now rewrite upper_lower.
  - repeat split; vm_compute; reflexivity.
Qed.

End LegacyApproval.

(** ** The trust tracker of the demonstration *)

Section DemoTracker.

Import Agents.
Local Open Scope R_scope.

(** X21. The tracker of InfluenceTestAI.py is the tracker of the
    experiments with the prior 0: on an agent whose prior is 0 the two
    [receive_feedback] leave the same scores and the two [mu] agree. The
    first score stored for a peer is [beta] times the clamped score, and
    with [0 <= beta <= 1] scores in [0,1] stay in [0,1], and so does
    their mean. *)
Theorem demo_tracker_is_the_tracker_with_prior_zero
    (m : gmap string R) (p : string) (s b : R) :
  (forall a, prior a = 0 -> peer_scores a = m ->
     peer_scores (receive_feedback a p s b) = InfluenceTestAI.receive_feedback m p s b
     /\ mu a = InfluenceTestAI.mu m)
  /\ (m !! p = None ->
      InfluenceTestAI.receive_feedback m p s b !! p = Some (b * Rmax 0 (Rmin 1 s)))
  /\ (0 <= b <= 1 -> map_Forall (fun _ v => 0 <= v <= 1) m ->
      map_Forall (fun _ v => 0 <= v <= 1) (InfluenceTestAI.receive_feedback m p s b)
      /\ 0 <= InfluenceTestAI.mu (InfluenceTestAI.receive_feedback m p s b) <= 1).
Proof.
  assert (Hrel : forall a, prior a = 0 -> peer_scores a = m ->
            peer_scores (receive_feedback a p s b)
            = InfluenceTestAI.receive_feedback m p s b
            /\ mu a = InfluenceTestAI.mu m).
  { intros a Hprior Hm. unfold receive_feedback, InfluenceTestAI.receive_feedback,
      mu, InfluenceTestAI.mu. cbn [peer_scores]. rewrite Hprior, Hm.
    split; reflexivity. }
  split; [exact Hrel |]. split.
  - intros Hnew. unfold InfluenceTestAI.receive_feedback.
    rewrite lookup_insert_eq, Hnew. cbn [default]. f_equal.
    unfold Datatypes.id. ring.
  - intros Hb Hall.
    set (a := Agent EmptyString EmptyString 0 0 0 0 m).
    destruct (Hrel a eq_refl eq_refl) as [Hscores _].
    assert (Hkeep : map_Forall (fun _ v => 0 <= v <= 1)
                      (peer_scores (receive_feedback a p s b))).
    { apply receive_feedback_keeps_unit; [simpl; lra | exact Hb | exact Hall]. }
    rewrite <- Hscores. split; [exact Hkeep |].
    apply (mu_unit_interval (receive_feedback a p s b)) in Hkeep.
    exact Hkeep.
Qed.

End DemoTracker.

(** ** The constraint handed to the planner in round 2 *)

Section PlannerConstraint.

Import PyStr Json Metrics Agents RunGrid.
Context `{Builtins}.

Lemma features_not_empty_strings (s y : string) :
  y ∈ extract_features_from_json s -> y <> EmptyString.
Proof.
  unfold extract_features_from_json, safe_json_loads.
  destruct (json_loads s) as [[| | | | | | d] |];
    try (intros Hy; now apply not_elem_of_empty in Hy).
  destruct (dict_get "features" d) as [[| | | | | xs |] |];
    try (intros Hy; now apply not_elem_of_empty in Hy).
  intros (x & _ & _ & Hb & ->)%elem_of_normalised_features.
  now apply normalised_join_split_lower.
Qed.

#[local] Instance str_le_total : Total str_le.
Proof. intros a b. unfold str_le. apply String.leb_total. Qed.

(** X22. The planner's prompt of round 2: when the researcher's baseline
    reply yields no feature the prompt is the influenced prompt as it is;
    otherwise the constraint is appended, and it lists every feature of
    that reply exactly once, in increasing order, separated by commas,
    whatever their number. *)
Theorem planner_constraint_lists_the_researcher_features
    (P : prompt_set) (r1 : string) :
  let RF1 := extract_features_from_json r1 in
  (RF1 = ∅ -> planner_influenced_prompt P RF1 = P_planner_influenced P)
  /\ (RF1 <> ∅ ->
      planner_influenced_prompt P RF1
      = String.append (P_planner_influenced P)
          (String.append nl (String.append nl
             (String.append
                "Constraint: Use EXACTLY these three features from Researcher baseline (use exact tokens, same order not required): ["
                (String.append (join ", " (sorted RF1)) "]. Do not rename them.")))))
  /\ (forall y, y ∈ sorted RF1 <-> y ∈ RF1)
  /\ NoDup (sorted RF1)
  /\ Sorted str_le (sorted RF1)
  /\ length (sorted RF1) = size RF1.
Proof.
  cbv zeta. set (RF1 := extract_features_from_json r1).
  assert (Hperm : sorted RF1 ≡ₚ elements RF1) by apply merge_sort_Permutation.
  split; [| split; [| split; [| split; [| split]]]].
  - intros ->. reflexivity.
  - intros Hne. unfold planner_influenced_prompt.
    rewrite bool_decide_eq_false_2 by exact Hne.
    destruct (sorted RF1) as [| w ws] eqn:E.
    + exfalso. apply Hne. apply leibniz_equiv, elements_empty_inv.
      now apply Permutation_nil_l in Hperm.
    + assert (Hw : w <> EmptyString).
      { apply (features_not_empty_strings r1). fold RF1.
        apply elem_of_elements. rewrite <- Hperm. now left. }
      destruct w as [| c w]; [contradiction |].
      destruct ws; reflexivity.
  - intros y. rewrite Hperm. apply elem_of_elements.
  - rewrite Hperm. apply NoDup_elements.
  - apply Sorted_merge_sort. exact str_le_total.
  - rewrite Hperm. reflexivity.
Qed.

End PlannerConstraint.

(** ** Reading the keys of the store *)

Section ReadDoneKeys.

Import PyStr Json Metrics Agents RunGrid RunGridParallel.

Lemma row_get_absent (name : string) (d : list (string * option string)) :
  name ∉ List.map fst d -> row_get name d = None.
Proof.
  induction d as [| [n v] d IH]; [reflexivity |].
  cbn [List.map fst]. intros Hn. apply not_elem_of_cons in Hn as [Hne Hn].
  cbn [row_get]. rewrite (IH Hn).
  destruct (String.eqb_spec name n); [contradiction | reflexivity].
Qed.

Lemma row_dict_names (header row : csv_row) (name : string) :
  name ∈ List.map fst (row_dict header row) -> name ∈ header.
Proof.
  unfold row_dict. rewrite List.map_app, elem_of_app. intros [Hin | Hin].
  - revert row Hin. induction header as [| h header IH]; intros row Hin.
    + simpl in Hin. now apply not_elem_of_nil in Hin.
    + destruct row as [| x row]; [simpl in Hin; now apply not_elem_of_nil in Hin |].
      cbn [List.map zip zip_with fst] in Hin.
      apply elem_of_cons in Hin as [-> | Hin]; [now left |].
      right. now apply (IH row).
  - rewrite List.map_map in Hin. cbn [fst] in Hin. rewrite List.map_id in Hin.
    apply list_elem_of_In in Hin. apply list_elem_of_In.
    revert Hin. generalize (length row). intros n. revert header.
    induction n as [| n IH]; intros header Hin; [now rewrite drop_0 in Hin |].
    destruct header as [| h header]; [exact Hin |].
    right. apply IH. exact Hin.
Qed.

Lemma row_key_needs_columns (header row : csv_row) (name : string) :
  name ∈ ["beta"; "k"; "tau"; "alpha"; "seed"; "adversarial"]%string ->
  name ∉ header -> row_key (row_dict header row) = None.
Proof.
  intros Hname Hmiss.
  assert (Hget : row_get name (row_dict header row) = None).
  { apply row_get_absent. intros Hin. now apply Hmiss, (row_dict_names _ row). }
  assert (Hfield : field name (row_dict header row) = None)
    by (unfold field; now rewrite Hget).
  assert (Hbind : forall (A B : Type) (m : option A) (f : A -> option B),
            (forall x, f x = None) -> m ≫= f = None).
  { intros A B [x |] f Hf; [apply Hf | reflexivity]. }
  apply list_elem_of_In in Hname. simpl in Hname.
  destruct Hname as [<- | [<- | [<- | [<- | [<- | [<- | []]]]]]];
    unfold row_key; rewrite Hfield;
    repeat (reflexivity || (apply Hbind; intros ?)).
Qed.


End ReadDoneKeys.
